(** * HitaSpeed (mvs_main.ino): zero-cross tracking, delay ramp and triac
      trigger scheduling

    Shallow embedding of the interrupt handlers of the Arduino sketch
    [src/mvs_main.ino] and proofs about them.

    Target platform: ATmega328P (Arduino Uno class, avr-gcc).  On that target
    [int] and [unsigned int] are 16 bits wide, [unsigned long] is 32 bits wide
    and both [float] and [double] are IEEE-754 binary32.  Integers are
    modelled as [Z] with the wrap-around written out; floating-point values
    are modelled with the parameterised IEEE specification [SpecFloat] of the
    standard library at precision 24 and maximal exponent 128. *)

From Stdlib Require Import ZArith Lia Bool List SpecFloat.
Import ListNotations.
Local Open Scope Z_scope.

(** ** Machine integers of the AVR target *)
Module Word.

(** [uint8_t]: the 8-bit timer control registers. *)
Definition u8 (z : Z) : Z := z mod 2 ^ 8.

(** [unsigned int] and [uint16_t]. *)
Definition u16 (z : Z) : Z := z mod 2 ^ 16.

(** [unsigned long]. *)
Definition u32 (z : Z) : Z := z mod 2 ^ 32.

(** [int]: two's complement, 16 bits.  Signed overflow is undefined in C;
    avr-gcc wraps, which is what is written here.  No overflow occurs on
    any state the sketch can reach (see [reachable_ramp_inv]). *)
Definition i16 (z : Z) : Z := (z + 2 ^ 15) mod 2 ^ 16 - 2 ^ 15.

End Word.

(** ** IEEE-754 binary32 ([float], and [double] on this target) *)
Module F32.

Definition prec : Z := 24.
Definition emax : Z := 128.

Definition float : Type := spec_float.

Definition add : float -> float -> float := SFadd prec emax.
Definition sub : float -> float -> float := SFsub prec emax.
Definition div : float -> float -> float := SFdiv prec emax.
Definition leb : float -> float -> bool := SFleb.

(** Integer to float conversion, rounding to nearest even. *)
Definition of_Z (z : Z) : float := binary_normalize prec emax z 0 false.

(** Float to integer conversion of a C cast: the fractional part is
    discarded (truncation toward zero).  Not-a-number and the infinities,
    for which the cast is undefined, give 0. *)
Definition trunc (x : float) : Z :=
  match x with
  | S754_finite s m e =>
      cond_Zopp s
        (match e with
         | Z0 => Zpos m
         | Zpos p => Zpos m * 2 ^ Zpos p
         | Zneg p => Zpos m / 2 ^ Zpos p
         end)
  | _ => 0
  end.

(** Nearest integer, halfway cases away from zero (C's [round]).  Used
    only to state what a specification sentence says. *)
Definition round (x : float) : Z :=
  match x with
  | S754_finite s m e =>
      cond_Zopp s
        (match e with
         | Z0 => Zpos m
         | Zpos p => Zpos m * 2 ^ Zpos p
         | Zneg p => (2 * Zpos m + 2 ^ Zpos p) / (2 * 2 ^ Zpos p)
         end)
  | _ => 0
  end.

(** The C cast [(unsigned int) x]. Values outside [0, 65535] are undefined
    behaviour in C; they are reduced modulo 2^16 here. *)
Definition to_u16 (x : float) : Z := Word.u16 (trunc x).

End F32.

(** ** State of the sketch *)

(** Arduino pin levels. *)
Inductive Level : Type := LOW | HIGH.

(** The 16-bit timer 1 of the ATmega328P, as far as the sketch programs it. *)
Record Timer1 : Type := mkTimer1 {
  TCNT1  : Z;    (* counter *)
  TCCR1A : Z;    (* control register A *)
  OCR1A  : Z;    (* compare match A register *)
  TCCR1B : Z     (* control register B: prescaler and mode *)
}.

(** The file-scope variables, the function-local statics, the timer and the
    two output pins. *)
Record State : Type := mkState {
  avgAboveThMics : F32.float;            (* static float *)
  avgBelowThMics : F32.float;            (* static float *)
  triacTriggerHoldoffMics : Z;           (* static volatile int *)
  stepMics : Z;                          (* static int, local to triggerDelay *)
  tsLastAboveThMics : Z;                 (* static unsigned long, local to the handler *)
  tsLastBelowThMics : Z;                 (* static unsigned long, local to the handler *)
  timer1 : Timer1;
  triacTriggerPin : Level;               (* TRIAC_TRIGGER_PIN, active low *)
  detectOutPin : Level                   (* DETECT_OUT_PIN, debugging only *)
}.

(** What a handler reads from the outside world when it runs: the time
    elapsed since reset, in microseconds and unbounded, and the level of
    VOLTAGE_THR_PIN. *)
Record Env : Type := mkEnv {
  clock : Z;
  voltageThrPin : Level
}.

(** Arduino's [micros()]: the elapsed time as an [unsigned long]; it wraps
    around every 2^32 microseconds. *)
Definition micros (e : Env) : Z := Word.u32 (clock e).

Definition digitalRead_VOLTAGE_THR_PIN (e : Env) : Level := voltageThrPin e.

Section Setters.
Variable s : State.

Definition set_avgAbove (x : F32.float) : State :=
  mkState x (avgBelowThMics s) (triacTriggerHoldoffMics s) (stepMics s)
    (tsLastAboveThMics s) (tsLastBelowThMics s) (timer1 s)
    (triacTriggerPin s) (detectOutPin s).

Definition set_avgBelow (x : F32.float) : State :=
  mkState (avgAboveThMics s) x (triacTriggerHoldoffMics s) (stepMics s)
    (tsLastAboveThMics s) (tsLastBelowThMics s) (timer1 s)
    (triacTriggerPin s) (detectOutPin s).

Definition set_holdoff (h : Z) : State :=
  mkState (avgAboveThMics s) (avgBelowThMics s) h (stepMics s)
    (tsLastAboveThMics s) (tsLastBelowThMics s) (timer1 s)
    (triacTriggerPin s) (detectOutPin s).

Definition set_step (d : Z) : State :=
  mkState (avgAboveThMics s) (avgBelowThMics s) (triacTriggerHoldoffMics s) d
    (tsLastAboveThMics s) (tsLastBelowThMics s) (timer1 s)
    (triacTriggerPin s) (detectOutPin s).

Definition set_tsLastAbove (t : Z) : State :=
  mkState (avgAboveThMics s) (avgBelowThMics s) (triacTriggerHoldoffMics s)
    (stepMics s) t (tsLastBelowThMics s) (timer1 s)
    (triacTriggerPin s) (detectOutPin s).

Definition set_tsLastBelow (t : Z) : State :=
  mkState (avgAboveThMics s) (avgBelowThMics s) (triacTriggerHoldoffMics s)
    (stepMics s) (tsLastAboveThMics s) t (timer1 s)
    (triacTriggerPin s) (detectOutPin s).

Definition set_timer1 (t : Timer1) : State :=
  mkState (avgAboveThMics s) (avgBelowThMics s) (triacTriggerHoldoffMics s)
    (stepMics s) (tsLastAboveThMics s) (tsLastBelowThMics s) t
    (triacTriggerPin s) (detectOutPin s).

Definition set_triacTriggerPin (l : Level) : State :=
  mkState (avgAboveThMics s) (avgBelowThMics s) (triacTriggerHoldoffMics s)
    (stepMics s) (tsLastAboveThMics s) (tsLastBelowThMics s) (timer1 s)
    l (detectOutPin s).

Definition set_detectOutPin (l : Level) : State :=
  mkState (avgAboveThMics s) (avgBelowThMics s) (triacTriggerHoldoffMics s)
    (stepMics s) (tsLastAboveThMics s) (tsLastBelowThMics s) (timer1 s)
    (triacTriggerPin s) l.
End Setters.

(** ** Constants *)

Definition halfPeriodMics : Z := 10000.          (* 10000U *)
Definition minDelayMics : Z := 200.
Definition maxDelayMics : Z := Word.u16 (halfPeriodMics - 1000).

(** Bit numbers of TCCR1B in avr/io.h for the ATmega328P. *)
Definition CS10 : Z := 0.
Definition CS11 : Z := 1.
Definition WGM12 : Z := 3.

(** ** The functions of the sketch *)

(** [softStart]: reset the trigger holdoff delay to its maximum value. *)
Definition softStart (s : State) : State :=
  set_holdoff s (Word.i16 halfPeriodMics).

(** [triggerDelay]: advance the ramp and return the next holdoff.  The
    compound assignment is done in [int]; both comparisons are against an
    [unsigned int], so the [int] is converted to [unsigned int] first. *)
Definition triggerDelay (s : State) : Z * State :=
  let h := Word.i16 (triacTriggerHoldoffMics s + stepMics s) in
  if Word.u16 h <=? minDelayMics then
    (Word.u16 (Word.i16 minDelayMics),
     set_step (set_holdoff s (Word.i16 minDelayMics)) (Word.i16 (- stepMics s)))
  else if Word.u16 h >=? maxDelayMics then
    (Word.u16 (Word.i16 maxDelayMics),
     set_step (set_holdoff s (Word.i16 maxDelayMics)) (Word.i16 (- stepMics s)))
  else
    (Word.u16 h, set_holdoff s h).

(** [ISR(TIMER1_COMPA_vect)]: fire the triac.  The gate is pulled low, the
    timer is stopped, and after the 40 microsecond busy wait the gate is
    released; the state on return is given. *)
Definition TIMER1_COMPA_vect (s : State) : State :=
  let s1 := set_triacTriggerPin s LOW in
  let t := timer1 s1 in
  let s2 := set_timer1 s1 (mkTimer1 (TCNT1 t) 0 (OCR1A t) 0) in
  set_triacTriggerPin s2 HIGH.

(** [scheduleTriacTrigger]: arm timer 1, one tick being 4 microseconds. *)
Definition scheduleTriacTrigger (micsSinceZeroCross delayMics : Z) (s : State) : State :=
  if delayMics >? Word.u16 (halfPeriodMics - halfPeriodMics / 32) then s
  else
    let ticks :=
      Word.u16 (if delayMics >? micsSinceZeroCross
                then Word.u16 (delayMics - micsSinceZeroCross) / 4
                else 0) in
    set_timer1 s
      (mkTimer1 0 0 (if ticks <? 4 then 4 else ticks)
         (Word.u8 (Z.lor (Z.lor (Z.shiftl 1 CS10) (Z.shiftl 1 CS11))
                         (Z.shiftl 1 WGM12)))).

(** The smoothing step [avg += ((float)deltaMics - avg) / 32.0]. *)
Definition smooth (avg : F32.float) (deltaMics : Z) : F32.float :=
  F32.add avg (F32.div (F32.sub (F32.of_Z deltaMics) avg) (F32.of_Z 32)).

(** The first argument of the scheduling call:
    [(unsigned int)((avgBelowThMics + 1.0) / 2)]. *)
Definition zeroCrossOffset (avgBelow : F32.float) : Z :=
  F32.to_u16 (F32.div (F32.add avgBelow (F32.of_Z 1)) (F32.of_Z 2)).

(** The interval [deltaMics] the handler computes for an edge: the time
    since the last edge of the other direction, in [unsigned long]
    arithmetic. *)
Definition deltaMics (e : Env) (s : State) : Z :=
  match digitalRead_VOLTAGE_THR_PIN e with
  | LOW => Word.u32 (micros e - tsLastBelowThMics s)
  | HIGH => Word.u32 (micros e - tsLastAboveThMics s)
  end.

(** [voltageCrossedThreshold]: the pin-change handler.  The pin reads LOW
    when the mains voltage rose above the detection threshold. *)
Definition voltageCrossedThreshold (e : Env) (s : State) : State :=
  let nowMics := micros e in
  match digitalRead_VOLTAGE_THR_PIN e with
  | LOW =>
      let s1 := set_detectOutPin s HIGH in
      let s2 := set_tsLastAbove s1 nowMics in
      let deltaMics := Word.u32 (tsLastAboveThMics s2 - tsLastBelowThMics s2) in
      if deltaMics >? halfPeriodMics then softStart s2
      else
        let s3 := set_avgBelow s2 (smooth (avgBelowThMics s2) deltaMics) in
        let '(delay, s4) := triggerDelay s3 in
        scheduleTriacTrigger (zeroCrossOffset (avgBelowThMics s3)) delay s4
  | HIGH =>
      let s1 := set_detectOutPin s LOW in
      let s2 := set_tsLastBelow s1 nowMics in
      let deltaMics := Word.u32 (tsLastBelowThMics s2 - tsLastAboveThMics s2) in
      if deltaMics >? halfPeriodMics then softStart s2
      else set_avgAbove s2 (smooth (avgAboveThMics s2) deltaMics)
  end.

(** The state when the first interrupt can arrive: the initialisers of the
    variables, the gate released, and timer 1 stopped by [setupTimer1].  The
    counter and the compare register are taken as 0; nothing below depends
    on their initial values. *)
Definition init : State :=
  mkState (F32.of_Z 9600) (F32.of_Z 150) (Word.i16 halfPeriodMics) (-17)
    0 0 (mkTimer1 0 0 0 0) HIGH LOW.

(** ** Running the sketch *)

(** The ways the state can change.  The program itself only ever enters
    through the two interrupt handlers; the helpers are listed as well so
    that invariants cover them when called on their own. *)
Inductive Op : Type :=
| OpEdge (e : Env)                 (* voltageCrossedThreshold *)
| OpTimerExpiry                    (* ISR(TIMER1_COMPA_vect) *)
| OpSoftStart
| OpTriggerDelay
| OpSchedule (micsSinceZeroCross delayMics : Z).

Definition exec (o : Op) (s : State) : State :=
  match o with
  | OpEdge e => voltageCrossedThreshold e s
  | OpTimerExpiry => TIMER1_COMPA_vect s
  | OpSoftStart => softStart s
  | OpTriggerDelay => snd (triggerDelay s)
  | OpSchedule z d => scheduleTriacTrigger z d s
  end.

Inductive reachable : State -> Prop :=
| reach_init : reachable init
| reach_exec o s : reachable s -> reachable (exec o s).

(** The state after [n] successive calls of [triggerDelay]. *)
Fixpoint after_delays (n : nat) (s : State) : State :=
  match n with
  | O => s
  | S n' => after_delays n' (snd (triggerDelay s))
  end.

(** A ramp state the sketch can be in: the holdoff between the lower clamp
    and the soft-start value, and a step of at most 200 microseconds (the
    sketch has 17). *)
Definition ramp_ok (s : State) : Prop :=
  minDelayMics <= triacTriggerHoldoffMics s <= halfPeriodMics /\
  Z.abs (stepMics s) <= 200.

(** ** Notions used in the statements *)

(** The holdoff is the soft-start value or within the clamps, and the step
    is 17 microseconds up or down. *)
Definition ramp_inv (s : State) : Prop :=
  (triacTriggerHoldoffMics s = halfPeriodMics \/
   minDelayMics <= triacTriggerHoldoffMics s <= maxDelayMics) /\
  (stepMics s = 17 \/ stepMics s = -17).

(** The sentence of the specification: the holdoff is always within the
    clamps of the ramp. *)
Definition holdoff_within_clamps (s : State) : Prop :=
  minDelayMics <= triacTriggerHoldoffMics s <= maxDelayMics.

(** The bookkeeping every edge does before it looks at the interval: the
    debug pin mirrors the detection and the time stamp of this direction is
    renewed. *)
Definition stamp_edge (e : Env) (s : State) : State :=
  match digitalRead_VOLTAGE_THR_PIN e with
  | LOW => set_tsLastAbove (set_detectOutPin s HIGH) (micros e)
  | HIGH => set_tsLastBelow (set_detectOutPin s LOW) (micros e)
  end.

(** Division by 4 rounded up, for the sentence of the specification. *)
Definition ceil_div4 (x : Z) : Z := (x + 3) / 4.

(** What the handler does once the edge is stamped, as a function of the
    direction and of the interval. *)
Definition after_stamp (l : Level) (delta : Z) (s2 : State) : State :=
  if delta >? halfPeriodMics then softStart s2
  else
    match l with
    | LOW =>
        let s3 := set_avgBelow s2 (smooth (avgBelowThMics s2) delta) in
        scheduleTriacTrigger (zeroCrossOffset (avgBelowThMics s3))
          (fst (triggerDelay s3)) (snd (triggerDelay s3))
    | HIGH => set_avgAbove s2 (smooth (avgAboveThMics s2) delta)
    end.

(** The value whose integer part is the zero-cross offset. *)
Definition half_of_successor (avgBelow : F32.float) : F32.float :=
  F32.div (F32.add avgBelow (F32.of_Z 1)) (F32.of_Z 2).

(** The sentences of the specification about one edge, as they are worded:
    the offset is [round ((avgBelow + 1) / 2)], and a falling edge always
    smooths the above-threshold average. *)
Definition edge_sentence (e : Env) (s : State) : Prop :=
  let s' := voltageCrossedThreshold e s in
  let delta := deltaMics e s in
  match digitalRead_VOLTAGE_THR_PIN e with
  | LOW =>
      delta <= halfPeriodMics ->
      let avg' := smooth (avgBelowThMics s) delta in
      avgBelowThMics s' = avg' /\
      timer1 s' =
        timer1 (scheduleTriacTrigger (F32.round (half_of_successor avg'))
                  (fst (triggerDelay s)) s)
  | HIGH =>
      avgAboveThMics s' = smooth (avgAboveThMics s) delta /\
      timer1 s' = timer1 s
  end.

(** The sentence of the specification: on an edge exactly one of the two
    averages takes the smoothing step for the interval of that edge, and the
    other keeps its value. *)
Definition exactly_one_average_updated (e : Env) (s : State) : Prop :=
  let s' := voltageCrossedThreshold e s in
  let delta := deltaMics e s in
  (avgBelowThMics s' = smooth (avgBelowThMics s) delta /\
   avgAboveThMics s' = avgAboveThMics s) \/
  (avgAboveThMics s' = smooth (avgAboveThMics s) delta /\
   avgBelowThMics s' = avgBelowThMics s).

(** The stored time stamp the interval of an edge is measured from. *)
Definition last_opposite (e : Env) (s : State) : Z :=
  match digitalRead_VOLTAGE_THR_PIN e with
  | LOW => tsLastBelowThMics s
  | HIGH => tsLastAboveThMics s
  end.

(** Two states that differ at most in the two time stamps. *)
Definition same_but_stamps (s1 s2 : State) : Prop :=
  avgAboveThMics s1 = avgAboveThMics s2 /\
  avgBelowThMics s1 = avgBelowThMics s2 /\
  triacTriggerHoldoffMics s1 = triacTriggerHoldoffMics s2 /\
  stepMics s1 = stepMics s2 /\
  timer1 s1 = timer1 s2 /\
  triacTriggerPin s1 = triacTriggerPin s2 /\
  detectOutPin s1 = detectOutPin s2.

(** Cycle [k] of the scenario: the voltage rises above the threshold at
    10000 k microseconds and falls below it 9600 microseconds later.  The
    clock is the unbounded time; [micros] wraps it. *)
Definition rising_edge (k : Z) : Env := mkEnv (10000 * k) LOW.
Definition falling_edge (k : Z) : Env := mkEnv (10000 * k + 9600) HIGH.

Definition mains_cycle (k : Z) (s : State) : State :=
  voltageCrossedThreshold (falling_edge k)
    (voltageCrossedThreshold (rising_edge k) s).

(** The state after the first [n] cycles, from initialisation. *)
Fixpoint ideal_mains (n : nat) : State :=
  match n with
  | O => init
  | S n' => mains_cycle (Z.of_nat n') (ideal_mains n')
  end.

(** The below-threshold average in that scenario: the very first rising edge
    measures an interval of 0 against the initial time stamp, every later
    one measures 400. *)
Fixpoint below_after (n : nat) : F32.float :=
  match n with
  | O => avgBelowThMics init
  | S n' => smooth (below_after n') (match n' with O => 0 | S _ => 400 end)
  end.

(** Within 50 percent of [c]: a generous reading of "approximately [c]". *)
Definition near (x : F32.float) (c : Z) : bool :=
  F32.leb (F32.of_Z (c - c / 2)) x && F32.leb x (F32.of_Z (c + c / 2)).

(** The sentence of the specification about the averages. *)
Definition ideal_mains_sentence : Prop :=
  forall n : nat, (32 <= n)%nat ->
    near (avgBelowThMics (ideal_mains n)) 9600 = true /\
    near (avgAboveThMics (ideal_mains n)) 150 = true.

(** What is checked of the below-threshold average of cycle [n]: from
    cycle 32 on it lies between 300 and 400. *)
Definition below_checked (n : nat) (a : F32.float) : bool :=
  (n <? 32)%nat || (F32.leb (F32.of_Z 300) a && F32.leb a (F32.of_Z 400)).

Fixpoint checked_upto (n : nat) : bool :=
  match n with
  | O => true
  | S n' => below_checked n (below_after n) && checked_upto n'
  end.

(** The cycle at which the smoothing stops moving in binary32. *)
Definition settled : nat := 412.

(** The scenario's invariant after [n] cycles, for [n] at least 1. *)
Definition cycle_inv (n : nat) (s : State) : Prop :=
  avgAboveThMics s = F32.of_Z 9600 /\
  avgBelowThMics s = below_after n /\
  triacTriggerHoldoffMics s = triacTriggerHoldoffMics (after_delays n init) /\
  stepMics s = stepMics (after_delays n init) /\
  tsLastAboveThMics s = Word.u32 (10000 * (Z.of_nat n - 1)) /\
  tsLastBelowThMics s = Word.u32 (10000 * (Z.of_nat n - 1) + 9600).

(** ** The rest of the sketch, and notions for its properties *)

(** Bit number of the compare-match-A interrupt enable in TIMSK1 (avr/io.h,
    ATmega328P). *)
Definition OCIE1A : Z := 1.

(** Timer 1 together with its interrupt mask register. *)
Record Timer1Unit : Type := mkTimer1Unit {
  regs : Timer1;
  TIMSK1 : Z
}.

(** [setupTimer1]: stop the timer and enable the compare interrupt. *)
Definition setupTimer1 (u : Timer1Unit) : Timer1Unit :=
  mkTimer1Unit
    (mkTimer1 (TCNT1 (regs u)) 0 (OCR1A (regs u)) 0)
    (Word.u8 (Z.lor (TIMSK1 u) (Z.shiftl 1 OCIE1A))).

(** The states the running program can be in: it is entered only through
    the pin-change handler and the timer interrupt. *)
Inductive handler_reachable : State -> Prop :=
| hreach_init : handler_reachable init
| hreach_edge e s :
    handler_reachable s -> handler_reachable (voltageCrossedThreshold e s)
| hreach_expiry s :
    handler_reachable s -> handler_reachable (TIMER1_COMPA_vect s).

(** A sequence of edges, handled in order. *)
Fixpoint run_edges (es : list Env) (s : State) : State :=
  match es with
  | [] => s
  | e :: es' => run_edges es' (voltageCrossedThreshold e s)
  end.

(** The holdoff and the step, the two variables the ramp lives in. *)
Definition ramp_of (s : State) : Z * Z :=
  (triacTriggerHoldoffMics s, stepMics s).

(** The number of calls after which the ramp repeats, and the number within
    which it has reached a clamp. *)
Definition ramp_period : nat := 1036.
Definition ramp_half_period : nat := 518.

(** A state with the given holdoff and step. *)
Definition ramp_state (h st : Z) : State := set_step (set_holdoff init h) st.

(** A rising edge: the pin reads LOW. *)
Definition is_rising (e : Env) : bool :=
  match digitalRead_VOLTAGE_THR_PIN e with
  | LOW => true
  | HIGH => false
  end.

(** Every edge of the sequence finds an interval of at most
    [halfPeriodMics] when it is handled: no mains loss along the way. *)
Fixpoint all_short (es : list Env) (s : State) : Prop :=
  match es with
  | [] => True
  | e :: es' =>
      deltaMics e s <= halfPeriodMics /\
      all_short es' (voltageCrossedThreshold e s)
  end.

(** A float that is a number: neither an infinity nor not-a-number. *)
Definition is_number (x : F32.float) : bool :=
  match x with
  | S754_zero _ | S754_finite _ _ _ => true
  | _ => false
  end.

(** Closed facts are settled by evaluation. *)
Ltac by_computation :=
  vm_compute; repeat split; intros; try discriminate; try reflexivity.

(** ** Facts about the machine integers *)
Module WordFacts.

Lemma u16_range z : 0 <= Word.u16 z < 65536.
Proof. unfold Word.u16. change (2 ^ 16) with 65536. apply Z.mod_pos_bound. lia. Qed.

Lemma u32_range z : 0 <= Word.u32 z < 4294967296.
Proof. unfold Word.u32. change (2 ^ 32) with 4294967296. apply Z.mod_pos_bound. lia. Qed.

Lemma i16_range z : -32768 <= Word.i16 z < 32768.
Proof.
  unfold Word.i16. change (2 ^ 15) with 32768. change (2 ^ 16) with 65536.
  pose proof (Z.mod_pos_bound (z + 32768) 65536). lia.
Qed.

Lemma u16_small z : 0 <= z < 65536 -> Word.u16 z = z.
Proof. intros H. unfold Word.u16. change (2 ^ 16) with 65536. now apply Z.mod_small. Qed.

Lemma u32_small z : 0 <= z < 4294967296 -> Word.u32 z = z.
Proof. intros H. unfold Word.u32. change (2 ^ 32) with 4294967296. now apply Z.mod_small. Qed.

Lemma i16_small z : -32768 <= z < 32768 -> Word.i16 z = z.
Proof.
  intros H. unfold Word.i16. change (2 ^ 15) with 32768. change (2 ^ 16) with 65536.
  rewrite Z.mod_small by lia. lia.
Qed.

(** Converting a negative [int] to [unsigned int] lands in the upper half. *)
Lemma u16_of_negative z : -32768 <= z < 0 -> Word.u16 z = z + 65536.
Proof.
  intros H. unfold Word.u16. change (2 ^ 16) with 65536.
  symmetry. apply (Z.mod_unique z 65536 (-1) (z + 65536)); lia.
Qed.

End WordFacts.

(** ** Constants, evaluated *)

Lemma maxDelayMics_eq : maxDelayMics = 9000.
Proof. reflexivity. Qed.

Lemma cutoff_eq : Word.u16 (halfPeriodMics - halfPeriodMics / 32) = 9688.
Proof. reflexivity. Qed.

Lemma TCCR1B_armed_eq :
  Word.u8 (Z.lor (Z.lor (Z.shiftl 1 CS10) (Z.shiftl 1 CS11)) (Z.shiftl 1 WGM12)) = 11.
Proof. reflexivity. Qed.

(** ** The delay ramp *)

(** An [int] whose [unsigned int] conversion is below 2^15 is that value. *)
Lemma i16_of_small_u16 z :
  -32768 <= z < 32768 -> Word.u16 z < 32768 -> Word.u16 z = z.
Proof.
  intros Hz Hu. destruct (Z_lt_le_dec z 0) as [Hneg | Hpos].
  - rewrite WordFacts.u16_of_negative in Hu by lia. lia.
  - apply WordFacts.u16_small. lia.
Qed.

(** Whatever the state, the value returned is within the clamps and is the
    holdoff that is stored. *)
Lemma triggerDelay_range (s : State) :
  minDelayMics <= fst (triggerDelay s) <= maxDelayMics /\
  triacTriggerHoldoffMics (snd (triggerDelay s)) = fst (triggerDelay s).
Proof.
  unfold triggerDelay.
  set (h := Word.i16 (triacTriggerHoldoffMics s + stepMics s)).
  rewrite maxDelayMics_eq. unfold minDelayMics.
  destruct (Word.u16 h <=? 200) eqn:Hlo; [cbn; lia |].
  destruct (Word.u16 h >=? 9000) eqn:Hhi; [cbn; lia |].
  apply Z.leb_gt in Hlo. rewrite Z.geb_leb in Hhi. apply Z.leb_gt in Hhi.
  cbn [fst snd set_holdoff triacTriggerHoldoffMics].
  split; [lia |].
  symmetry. apply i16_of_small_u16; [apply WordFacts.i16_range | lia].
Qed.

(** On a ramp state no conversion wraps, and the call is the clamped step. *)
Lemma triggerDelay_ramp (s : State) :
  ramp_ok s ->
  let sum := triacTriggerHoldoffMics s + stepMics s in
  let d := Z.max minDelayMics (Z.min maxDelayMics sum) in
  let st := if (minDelayMics <? sum) && (sum <? maxDelayMics)
            then stepMics s else - stepMics s in
  triggerDelay s = (d, set_step (set_holdoff s d) st).
Proof.
  intros [Hh Hs]. unfold triggerDelay. rewrite maxDelayMics_eq in *.
  unfold minDelayMics, halfPeriodMics in *. cbv zeta.
  rewrite (WordFacts.i16_small (_ + _)) by lia.
  rewrite (WordFacts.u16_small (_ + _)) by lia.
  rewrite (WordFacts.i16_small (- _)) by lia.
  set (sum := triacTriggerHoldoffMics s + stepMics s).
  destruct (sum <=? 200) eqn:Hlo.
  - apply Z.leb_le in Hlo.
    replace (200 <? sum) with false by (symmetry; apply Z.ltb_ge; lia).
    cbn [andb]. rewrite Z.max_l by lia. reflexivity.
  - apply Z.leb_gt in Hlo.
    replace (200 <? sum) with true by (symmetry; apply Z.ltb_lt; lia).
    cbn [andb]. destruct (sum >=? 9000) eqn:Hhi; rewrite Z.geb_leb in Hhi.
    + apply Z.leb_le in Hhi.
      replace (sum <? 9000) with false by (symmetry; apply Z.ltb_ge; lia).
      rewrite Z.min_l, Z.max_r by lia. reflexivity.
    + apply Z.leb_gt in Hhi.
      replace (sum <? 9000) with true by (symmetry; apply Z.ltb_lt; lia).
      rewrite Z.min_r, Z.max_r by lia.
      destruct s; reflexivity.
Qed.

Lemma triggerDelay_keeps_ramp_ok (s : State) :
  ramp_ok s ->
  ramp_ok (snd (triggerDelay s)) /\
  Z.abs (stepMics (snd (triggerDelay s))) = Z.abs (stepMics s).
Proof.
  intros H. rewrite (triggerDelay_ramp s H). destruct H as [Hh Hs].
  cbn [snd]. unfold ramp_ok. cbn [set_step set_holdoff triacTriggerHoldoffMics stepMics].
  rewrite maxDelayMics_eq in *. unfold minDelayMics, halfPeriodMics in *.
  destruct ((200 <? _) && (_ <? 9000)); lia.
Qed.

Lemma after_delays_ramp_ok (n : nat) :
  forall s, ramp_ok s ->
    ramp_ok (after_delays n s) /\
    Z.abs (stepMics (after_delays n s)) = Z.abs (stepMics s).
Proof.
  induction n as [| n IH]; intros s H; cbn [after_delays].
  - split; [assumption | reflexivity].
  - destruct (triggerDelay_keeps_ramp_ok s H) as [H1 H2].
    destruct (IH _ H1) as [H3 H4]. split; [assumption | congruence].
Qed.

(** C2.  Every value [triggerDelay] returns lies in [minDelayMics,
    maxDelayMics] = [200, 9000], whatever the state.  From any ramp state
    (holdoff between 200 and the soft-start value 10000, step magnitude at
    most 200, 17 in the sketch) the values returned by successive calls are
    determined by the triangular rule: the call adds the signed step to the
    holdoff and clamps the sum to [200, 9000]; the step keeps its sign while
    the sum is strictly inside the clamps and is negated exactly when the
    sum reaches or passes one of them; its magnitude never changes. *)
Theorem triggerDelay_triangular :
  (forall s : State,
      minDelayMics <= fst (triggerDelay s) <= maxDelayMics) /\
  (forall (s : State) (n : nat),
      ramp_ok s ->
      let s_n := after_delays n s in
      let sum := triacTriggerHoldoffMics s_n + stepMics s_n in
      let d := fst (triggerDelay s_n) in
      let s' := snd (triggerDelay s_n) in
      d = Z.max 200 (Z.min 9000 sum) /\
      triacTriggerHoldoffMics s' = d /\
      stepMics s' = (if (200 <? sum) && (sum <? 9000)
                     then stepMics s_n else - stepMics s_n) /\
      Z.abs (stepMics s') = Z.abs (stepMics s)).
Proof.
  split.
  - intros s. apply triggerDelay_range.
  - intros s n H. cbv zeta.
    destruct (after_delays_ramp_ok n s H) as [Hn Habs].
    destruct (triggerDelay_keeps_ramp_ok _ Hn) as [_ Habs'].
    rewrite Habs in Habs'.
    rewrite (triggerDelay_ramp _ Hn) in *. cbn [fst snd] in *.
    rewrite maxDelayMics_eq in *. unfold minDelayMics in *.
    cbn [set_step set_holdoff triacTriggerHoldoffMics stepMics] in *.
    repeat split; try reflexivity. exact Habs'.
Qed.

Lemma init_ramp_ok : ramp_ok init.
Proof. by_computation. Qed.

Lemma triggerDelay_triangular_witness :
  ramp_ok init /\
  fst (triggerDelay (after_delays 3 init)) = 8966 /\
  stepMics (snd (triggerDelay (after_delays 3 init))) = -17.
Proof.
  split; [exact init_ramp_ok |].
  destruct (proj2 triggerDelay_triangular init 3%nat init_ramp_ok)
    as (Hd & _ & Hs & _).
  split; [rewrite Hd | rewrite Hs]; reflexivity.
Defined.

(** ** What each function leaves alone *)

Lemma scheduleTriacTrigger_frame (z d : Z) (s : State) :
  let s' := scheduleTriacTrigger z d s in
  avgAboveThMics s' = avgAboveThMics s /\
  avgBelowThMics s' = avgBelowThMics s /\
  triacTriggerHoldoffMics s' = triacTriggerHoldoffMics s /\
  stepMics s' = stepMics s /\
  tsLastAboveThMics s' = tsLastAboveThMics s /\
  tsLastBelowThMics s' = tsLastBelowThMics s /\
  triacTriggerPin s' = triacTriggerPin s /\
  detectOutPin s' = detectOutPin s.
Proof.
  unfold scheduleTriacTrigger.
  destruct (d >? _); cbn; repeat split; reflexivity.
Qed.

Lemma triggerDelay_frame (s : State) :
  let s' := snd (triggerDelay s) in
  avgAboveThMics s' = avgAboveThMics s /\
  avgBelowThMics s' = avgBelowThMics s /\
  tsLastAboveThMics s' = tsLastAboveThMics s /\
  tsLastBelowThMics s' = tsLastBelowThMics s /\
  timer1 s' = timer1 s /\
  triacTriggerPin s' = triacTriggerPin s /\
  detectOutPin s' = detectOutPin s.
Proof.
  unfold triggerDelay.
  destruct (_ <=? _); [| destruct (_ >=? _)]; cbn; repeat split; reflexivity.
Qed.

(** The ramp only looks at the holdoff and the step. *)
Lemma triggerDelay_ext (s1 s2 : State) :
  triacTriggerHoldoffMics s1 = triacTriggerHoldoffMics s2 ->
  stepMics s1 = stepMics s2 ->
  fst (triggerDelay s1) = fst (triggerDelay s2) /\
  triacTriggerHoldoffMics (snd (triggerDelay s1)) =
    triacTriggerHoldoffMics (snd (triggerDelay s2)) /\
  stepMics (snd (triggerDelay s1)) = stepMics (snd (triggerDelay s2)).
Proof.
  intros Hh Hs. unfold triggerDelay. rewrite Hh, Hs.
  destruct (_ <=? _); [| destruct (_ >=? _)]; cbn; repeat split;
    try reflexivity; assumption.
Qed.

(** The holdoff and the step after an edge: soft-start on a long interval,
    one ramp step on a short rising edge, nothing on a short falling edge. *)
Lemma voltageCrossedThreshold_ramp (e : Env) (s : State) :
  let s' := voltageCrossedThreshold e s in
  if deltaMics e s >? halfPeriodMics then
    triacTriggerHoldoffMics s' = halfPeriodMics /\ stepMics s' = stepMics s
  else
    match digitalRead_VOLTAGE_THR_PIN e with
    | LOW =>
        triacTriggerHoldoffMics s' = fst (triggerDelay s) /\
        stepMics s' = stepMics (snd (triggerDelay s))
    | HIGH =>
        triacTriggerHoldoffMics s' = triacTriggerHoldoffMics s /\
        stepMics s' = stepMics s
    end.
Proof.
  unfold voltageCrossedThreshold, deltaMics.
  destruct (digitalRead_VOLTAGE_THR_PIN e);
    cbn [tsLastAboveThMics tsLastBelowThMics set_tsLastAbove set_tsLastBelow
         set_detectOutPin];
    destruct (_ >? halfPeriodMics); try (split; reflexivity).
  match goal with
  | |- context [triggerDelay ?s3] =>
      destruct (triggerDelay_ext s3 s eq_refl eq_refl) as (H1 & H2 & H3);
      destruct (triggerDelay_range s3) as [_ H4];
      destruct (triggerDelay s3) as [delay s4] eqn:E
  end.
  cbn [fst snd] in *.
  destruct (scheduleTriacTrigger_frame
              (zeroCrossOffset
                 (avgBelowThMics
                    (set_avgBelow
                       (set_tsLastAbove (set_detectOutPin s HIGH) (micros e))
                       (smooth
                          (avgBelowThMics
                             (set_tsLastAbove (set_detectOutPin s HIGH) (micros e)))
                          (Word.u32 (micros e - tsLastBelowThMics s))))))
              delay s4) as (_ & _ & F1 & F2 & _).
  cbv zeta. split; congruence.
Qed.

(** ** The holdoff invariant *)

Lemma ramp_inv_ramp_ok (s : State) : ramp_inv s -> ramp_ok s.
Proof.
  unfold ramp_inv, ramp_ok. rewrite maxDelayMics_eq.
  unfold minDelayMics, halfPeriodMics. lia.
Qed.

Lemma triggerDelay_keeps_ramp_inv (s : State) :
  ramp_inv s -> ramp_inv (snd (triggerDelay s)).
Proof.
  intros H. pose proof (ramp_inv_ramp_ok s H) as Hok.
  destruct (triggerDelay_keeps_ramp_ok s Hok) as [_ Habs].
  destruct (triggerDelay_range s) as [Hr Heq].
  destruct H as [_ Hs]. unfold ramp_inv. rewrite Heq. split; [right; exact Hr | lia].
Qed.

Lemma exec_keeps_ramp_inv (o : Op) (s : State) :
  ramp_inv s -> ramp_inv (exec o s).
Proof.
  intros H. destruct o as [e | | | | z d]; cbn [exec].
  - pose proof (voltageCrossedThreshold_ramp e s) as V. cbv zeta in V.
    destruct (deltaMics e s >? halfPeriodMics).
    + destruct V as [V1 V2]. unfold ramp_inv. rewrite V1, V2.
      split; [left; reflexivity | apply H].
    + destruct (digitalRead_VOLTAGE_THR_PIN e); destruct V as [V1 V2].
      * pose proof (triggerDelay_keeps_ramp_inv s H) as K.
        destruct (triggerDelay_range s) as [_ Heq].
        unfold ramp_inv in *. rewrite V1, V2, <- Heq. exact K.
      * unfold ramp_inv in *. rewrite V1, V2. exact H.
  - exact H.
  - unfold ramp_inv in *. cbn. split; [left; reflexivity | apply H].
  - apply triggerDelay_keeps_ramp_inv, H.
  - destruct (scheduleTriacTrigger_frame z d s) as (_ & _ & F1 & F2 & _).
    unfold ramp_inv in *. rewrite F1, F2. exact H.
Qed.

Lemma reachable_ramp_inv (s : State) : reachable s -> ramp_inv s.
Proof.
  induction 1 as [| o s _ IH].
  - unfold ramp_inv. cbn. split; [left; reflexivity | right; reflexivity].
  - apply exec_keeps_ramp_inv, IH.
Qed.

(** C6, as stated, fails: at initialisation (and after every soft-start) the
    holdoff is [halfPeriodMics] = 10000, above [maxDelayMics] = 9000. *)
Lemma holdoff_within_clamps_fails :
  ~ (forall s : State, reachable s -> holdoff_within_clamps s).
Proof.
  intros H. specialize (H init reach_init).
  unfold holdoff_within_clamps in H. destruct H as [_ H].
  vm_compute in H. apply H. reflexivity.
Qed.

(** C6, amended.  At all times (after initialisation and after any sequence
    of edge events, timer expiries, and calls of softStart, triggerDelay and
    scheduleTriacTrigger) the holdoff lies within [minDelayMics,
    halfPeriodMics] = [200, 10000]: it is exactly 10000 at initialisation and
    after softStart, and within [200, 9000] after triggerDelay. *)
Theorem holdoff_step_invariant (s : State) :
  reachable s ->
  minDelayMics <= triacTriggerHoldoffMics s <= halfPeriodMics /\
  (triacTriggerHoldoffMics s = halfPeriodMics \/ holdoff_within_clamps s) /\
  triacTriggerHoldoffMics init = halfPeriodMics /\
  triacTriggerHoldoffMics (softStart s) = halfPeriodMics /\
  holdoff_within_clamps (snd (triggerDelay s)).
Proof.
  intros R. pose proof (reachable_ramp_inv s R) as [Hh Hs].
  unfold holdoff_within_clamps. destruct (triggerDelay_range s) as [Hr Heq].
  rewrite Heq. repeat split; try reflexivity; try apply Hr; try exact Hh.
  - destruct Hh as [-> | Hh]; [by_computation | apply Hh].
  - destruct Hh as [-> | Hh]; [by_computation |].
    rewrite maxDelayMics_eq in Hh. unfold halfPeriodMics. lia.
Qed.

Lemma holdoff_step_invariant_witness :
  reachable (exec OpTriggerDelay init) /\
  200 <= triacTriggerHoldoffMics (exec OpTriggerDelay init) <= 10000.
Proof.
  split; [apply reach_exec, reach_init |].
  exact (proj1 (holdoff_step_invariant (exec OpTriggerDelay init)
                  (reach_exec OpTriggerDelay init reach_init))).
Defined.

(** ** Mains loss and soft-start *)

(** On a long interval the handler is the bookkeeping followed by
    [softStart]. *)
Lemma voltageCrossedThreshold_long_interval (e : Env) (s : State) :
  deltaMics e s > halfPeriodMics ->
  voltageCrossedThreshold e s = softStart (stamp_edge e s).
Proof.
  intros Hd. apply Z.gt_lt, Z.gtb_lt in Hd. revert Hd.
  unfold voltageCrossedThreshold, deltaMics, stamp_edge.
  destruct (digitalRead_VOLTAGE_THR_PIN e);
    cbn [tsLastAboveThMics tsLastBelowThMics set_tsLastAbove set_tsLastBelow
         set_detectOutPin];
    intros ->; reflexivity.
Qed.

Lemma stamp_edge_frame (e : Env) (s : State) :
  avgAboveThMics (stamp_edge e s) = avgAboveThMics s /\
  avgBelowThMics (stamp_edge e s) = avgBelowThMics s /\
  triacTriggerHoldoffMics (stamp_edge e s) = triacTriggerHoldoffMics s /\
  stepMics (stamp_edge e s) = stepMics s /\
  timer1 (stamp_edge e s) = timer1 s /\
  triacTriggerPin (stamp_edge e s) = triacTriggerPin s.
Proof.
  unfold stamp_edge. destruct (digitalRead_VOLTAGE_THR_PIN e);
    cbn; repeat split; reflexivity.
Qed.

(** C1.  On every edge whose interval since the previous edge of the other
    direction exceeds [halfPeriodMics] = 10000, the handler does nothing but
    the bookkeeping and softStart: afterwards the holdoff is exactly
    [halfPeriodMics] whatever the ramp position was, neither average has
    changed, and timer 1 is as it was (no trigger is scheduled); the ramp
    step is kept. *)
Theorem mains_loss_soft_start (e : Env) (s : State) :
  deltaMics e s > halfPeriodMics ->
  let s' := voltageCrossedThreshold e s in
  s' = softStart (stamp_edge e s) /\
  triacTriggerHoldoffMics s' = halfPeriodMics /\
  avgAboveThMics s' = avgAboveThMics s /\
  avgBelowThMics s' = avgBelowThMics s /\
  timer1 s' = timer1 s /\
  stepMics s' = stepMics s.
Proof.
  intros Hd s'. subst s'.
  rewrite (voltageCrossedThreshold_long_interval e s Hd).
  destruct (stamp_edge_frame e s) as (A1 & A2 & _ & A4 & A5 & _).
  cbn [softStart set_holdoff avgAboveThMics avgBelowThMics timer1 stepMics
       triacTriggerHoldoffMics].
  repeat split; try assumption; reflexivity.
Qed.

Lemma mains_loss_soft_start_witness :
  deltaMics (mkEnv 25000 LOW) (snd (triggerDelay init)) > halfPeriodMics /\
  triacTriggerHoldoffMics (snd (triggerDelay init)) = 9000 /\
  triacTriggerHoldoffMics
    (voltageCrossedThreshold (mkEnv 25000 LOW) (snd (triggerDelay init))) = 10000.
Proof.
  assert (H : deltaMics (mkEnv 25000 LOW) (snd (triggerDelay init)) > halfPeriodMics)
    by reflexivity.
  split; [exact H |]. split; [reflexivity |].
  exact (proj1 (proj2 (mains_loss_soft_start _ _ H))).
Defined.

(** ** Scheduling the trigger *)

(** C3, as stated, fails: a request of 9688 microseconds exceeds
    [halfPeriodMics * 31 / 32] = 9687.5, yet the timer is armed, because the
    cutoff the code computes is 10000 - 10000 / 32 = 9688 in integer
    arithmetic and the comparison is strict. *)
Lemma skip_above_31_32nds_fails :
  ~ (forall (z d : Z) (s : State),
        0 <= z < 65536 -> 0 <= d < 65536 ->
        d * 32 > halfPeriodMics * 31 ->
        timer1 (scheduleTriacTrigger z d s) = timer1 s).
Proof.
  intros H.
  specialize (H 0 9688 init ltac:(lia) ltac:(lia) ltac:(reflexivity)).
  vm_compute in H. discriminate H.
Qed.

(** C3, amended.  The cutoff is [halfPeriodMics - halfPeriodMics / 32] with
    integer division, that is 9688: a call with [delayMics] above 9688
    returns with timer 1 untouched, and a call with [delayMics] up to and
    including 9688 arms the timer (counter cleared, prescaler and CTC mode
    selected). *)
Theorem skip_above_cutoff (z d : Z) (s : State) :
  halfPeriodMics - halfPeriodMics / 32 = 9688 /\
  (d > 9688 -> timer1 (scheduleTriacTrigger z d s) = timer1 s) /\
  (d <= 9688 ->
     TCNT1 (timer1 (scheduleTriacTrigger z d s)) = 0 /\
     TCCR1A (timer1 (scheduleTriacTrigger z d s)) = 0 /\
     TCCR1B (timer1 (scheduleTriacTrigger z d s)) = 11).
Proof.
  split; [reflexivity |]. unfold scheduleTriacTrigger. rewrite cutoff_eq.
  split; intros Hd.
  - apply Z.gt_lt, Z.gtb_lt in Hd. rewrite Hd. reflexivity.
  - replace (d >? 9688) with false by (symmetry; rewrite Z.gtb_ltb; apply Z.ltb_ge; lia).
    cbn. repeat split; reflexivity.
Qed.

Lemma skip_above_cutoff_witness :
  9689 > 9688 /\ 9688 <= 9688 /\
  timer1 (scheduleTriacTrigger 75 9689 init) = timer1 init /\
  TCCR1B (timer1 (scheduleTriacTrigger 75 9688 init)) = 11.
Proof.
  split; [lia |]. split; [lia |]. split.
  - exact (proj1 (proj2 (skip_above_cutoff 75 9689 init)) ltac:(lia)).
  - exact (proj2 (proj2 (proj2 (proj2 (skip_above_cutoff 75 9688 init)) ltac:(lia)))).
Defined.

(** C10.  A call that takes the skip branch changes nothing at all: the
    state returned is the state given, so TCNT1, TCCR1A, OCR1A and TCCR1B
    keep their values and a timer armed earlier stays armed as it was. *)
Theorem skip_is_identity (z d : Z) (s : State) :
  d > Word.u16 (halfPeriodMics - halfPeriodMics / 32) ->
  scheduleTriacTrigger z d s = s /\
  TCNT1 (timer1 (scheduleTriacTrigger z d s)) = TCNT1 (timer1 s) /\
  TCCR1A (timer1 (scheduleTriacTrigger z d s)) = TCCR1A (timer1 s) /\
  OCR1A (timer1 (scheduleTriacTrigger z d s)) = OCR1A (timer1 s) /\
  TCCR1B (timer1 (scheduleTriacTrigger z d s)) = TCCR1B (timer1 s).
Proof.
  intros Hd. apply Z.gt_lt, Z.gtb_lt in Hd.
  unfold scheduleTriacTrigger. rewrite Hd. repeat split; reflexivity.
Qed.

Lemma skip_is_identity_witness :
  let armed := scheduleTriacTrigger 75 8000 init in
  OCR1A (timer1 armed) = 1981 /\
  scheduleTriacTrigger 75 9700 armed = armed.
Proof.
  split; [reflexivity |].
  exact (proj1 (skip_is_identity 75 9700 (scheduleTriacTrigger 75 8000 init)
                  ltac:(reflexivity))).
Defined.

(** C4, as stated, fails: for a difference of 21 microseconds the compare
    value is 5 ticks (21 / 4 rounded down), not 6 (rounded up). *)
Lemma ticks_ceiling_fails :
  ~ (forall (z d : Z) (s : State),
        0 <= z < 65536 -> 0 <= d < 65536 ->
        d <= Word.u16 (halfPeriodMics - halfPeriodMics / 32) -> z <= d ->
        4 <= OCR1A (timer1 (scheduleTriacTrigger z d s)) /\
        OCR1A (timer1 (scheduleTriacTrigger z d s)) = Z.max 4 (ceil_div4 (d - z))).
Proof.
  intros H.
  destruct (H 0 21 init ltac:(lia) ltac:(lia) ltac:(by_computation) ltac:(lia))
    as [_ H'].
  vm_compute in H'. discriminate H'.
Qed.

(** An armed timer: counter and control register A cleared, the compare
    value the difference in ticks of 4 microseconds, rounded down and at
    least 4, and divide-by-64 prescaler with CTC mode in control register B. *)
Lemma scheduleTriacTrigger_armed (z d : Z) (s : State) :
  0 <= z -> d <= 9688 ->
  timer1 (scheduleTriacTrigger z d s) = mkTimer1 0 0 (Z.max 4 ((d - z) / 4)) 11.
Proof.
  intros Hz Hd. unfold scheduleTriacTrigger. rewrite cutoff_eq, TCCR1B_armed_eq.
  replace (d >? 9688) with false by (symmetry; rewrite Z.gtb_ltb; apply Z.ltb_ge; lia).
  cbn [timer1 set_timer1]. f_equal.
  destruct (d >? z) eqn:Hgt; rewrite Z.gtb_ltb in Hgt.
  - apply Z.ltb_lt in Hgt.
    pose proof (Z.div_pos (d - z) 4 ltac:(lia) ltac:(lia)) as Hq0.
    assert (Hq1 : (d - z) / 4 <= 2422) by (apply Z.div_le_upper_bound; lia).
    rewrite (WordFacts.u16_small (d - z)) by lia.
    rewrite (WordFacts.u16_small ((d - z) / 4)) by lia.
    destruct (_ <? 4) eqn:Hlt; [apply Z.ltb_lt in Hlt | apply Z.ltb_ge in Hlt]; lia.
  - apply Z.ltb_ge in Hgt.
    assert (Hq : (d - z) / 4 <= 0) by (apply Z.div_le_upper_bound; lia).
    cbn. lia.
Qed.

(** C4, amended.  For every call that arms the timer, with
    [micsSinceZeroCross <= delayMics], the compare value written to OCR1A is
    at least 4 and equals the difference divided by 4 rounded down (integer
    division), raised to 4 when below. *)
Theorem ticks_floor (z d : Z) (s : State) :
  0 <= z -> z <= d ->
  d <= Word.u16 (halfPeriodMics - halfPeriodMics / 32) ->
  4 <= OCR1A (timer1 (scheduleTriacTrigger z d s)) /\
  OCR1A (timer1 (scheduleTriacTrigger z d s)) = Z.max 4 ((d - z) / 4).
Proof.
  intros Hz _ Hd. rewrite cutoff_eq in Hd.
  rewrite (scheduleTriacTrigger_armed z d s Hz Hd). cbn [OCR1A]. lia.
Qed.

Lemma ticks_floor_witness :
  OCR1A (timer1 (scheduleTriacTrigger 73 9000 init)) = 2231 /\
  OCR1A (timer1 (scheduleTriacTrigger 190 200 init)) = 4.
Proof.
  split.
  - rewrite (proj2 (ticks_floor 73 9000 init ltac:(lia) ltac:(lia)
                      ltac:(by_computation))). reflexivity.
  - rewrite (proj2 (ticks_floor 190 200 init ltac:(lia) ltac:(lia)
                      ltac:(by_computation))). reflexivity.
Defined.

(** ** The edge handler, by interval *)

Lemma voltageCrossedThreshold_after_stamp (e : Env) (s : State) :
  voltageCrossedThreshold e s =
  after_stamp (digitalRead_VOLTAGE_THR_PIN e) (deltaMics e s) (stamp_edge e s).
Proof.
  unfold voltageCrossedThreshold, after_stamp, deltaMics, stamp_edge.
  destruct (digitalRead_VOLTAGE_THR_PIN e);
    cbn [tsLastAboveThMics tsLastBelowThMics set_tsLastAbove set_tsLastBelow
         set_detectOutPin];
    destruct (_ >? halfPeriodMics); try reflexivity.
  cbv zeta. destruct (triggerDelay _) as [delay s4]. reflexivity.
Qed.

Lemma zeroCrossOffset_trunc (avgBelow : F32.float) :
  zeroCrossOffset avgBelow = Word.u16 (F32.trunc (half_of_successor avgBelow)).
Proof. reflexivity. Qed.

(** C5, as stated, fails twice.  A rising edge 230 microseconds after the
    start moves the average to 152.5; the offset passed on is 76, the
    integer part of 76.75, where rounding gives 77, and the compare value
    becomes 2231 instead of 2230.  A falling edge after 25000 microseconds
    is a soft-start and leaves the above-threshold average alone. *)
Lemma edge_sentence_fails :
  ~ edge_sentence (mkEnv 230 LOW) init /\
  ~ edge_sentence (mkEnv 25000 HIGH) init.
Proof.
  split; intros H.
  - destruct (H ltac:(by_computation)) as [_ H'].
    vm_compute in H'. discriminate H'.
  - destruct H as [H' _]. vm_compute in H'. discriminate H'.
Qed.

(** Every field after a rising edge with a short interval. *)
Lemma rising_short_fields (e : Env) (s : State) :
  digitalRead_VOLTAGE_THR_PIN e = LOW ->
  deltaMics e s <= halfPeriodMics ->
  let s' := voltageCrossedThreshold e s in
  let avg' := smooth (avgBelowThMics s) (deltaMics e s) in
  let delay := fst (triggerDelay s) in
  avgBelowThMics s' = avg' /\
  avgAboveThMics s' = avgAboveThMics s /\
  triacTriggerHoldoffMics s' = delay /\
  stepMics s' = stepMics (snd (triggerDelay s)) /\
  timer1 s' = timer1 (scheduleTriacTrigger (zeroCrossOffset avg') delay s) /\
  tsLastAboveThMics s' = micros e /\
  tsLastBelowThMics s' = tsLastBelowThMics s /\
  triacTriggerPin s' = triacTriggerPin s /\
  detectOutPin s' = HIGH.
Proof.
  intros Hpin Hd. cbv zeta. rewrite voltageCrossedThreshold_after_stamp.
  destruct (stamp_edge_frame e s) as (A1 & A2 & A3 & A4 & A5 & A6).
  assert (A7 : tsLastAboveThMics (stamp_edge e s) = micros e)
    by (unfold stamp_edge; rewrite Hpin; reflexivity).
  assert (A8 : tsLastBelowThMics (stamp_edge e s) = tsLastBelowThMics s)
    by (unfold stamp_edge; rewrite Hpin; reflexivity).
  assert (A9 : detectOutPin (stamp_edge e s) = HIGH)
    by (unfold stamp_edge; rewrite Hpin; reflexivity).
  revert Hd. generalize (deltaMics e s). intros delta Hd. unfold after_stamp.
  rewrite Hpin.
  replace (delta >? halfPeriodMics) with false
    by (symmetry; rewrite Z.gtb_ltb; apply Z.ltb_ge; lia).
  cbv zeta. cbn [avgBelowThMics set_avgBelow]. rewrite A2.
  set (s3 := set_avgBelow (stamp_edge e s) (smooth (avgBelowThMics s) delta)).
  destruct (triggerDelay_ext s3 s) as (E1 & E2 & E3); [exact A3 | exact A4 |].
  destruct (triggerDelay_range s3) as [_ R].
  destruct (triggerDelay_frame s3) as (F1 & F2 & F3 & F4 & F5 & F6 & F7).
  cbv zeta in F1, F2, F3, F4, F5, F6, F7.
  destruct (scheduleTriacTrigger_frame
              (zeroCrossOffset (smooth (avgBelowThMics s) delta))
              (fst (triggerDelay s3)) (snd (triggerDelay s3)))
    as (G1 & G2 & G3 & G4 & G5 & G6 & G7 & G8).
  cbv zeta in G1, G2, G3, G4, G5, G6, G7, G8.
  rewrite G1, G2, G3, G4, G5, G6, G7, G8, F1, F2, F3, F4, F6, F7, R, E1, E3.
  repeat split; try reflexivity; try assumption.
  unfold scheduleTriacTrigger.
  destruct (_ >? _); cbn [timer1 set_timer1]; [| reflexivity].
  rewrite F5. exact A5.
Qed.

(** Every field after a falling edge with a short interval. *)
Lemma falling_short_fields (e : Env) (s : State) :
  digitalRead_VOLTAGE_THR_PIN e = HIGH ->
  deltaMics e s <= halfPeriodMics ->
  voltageCrossedThreshold e s =
  mkState (smooth (avgAboveThMics s) (deltaMics e s)) (avgBelowThMics s)
    (triacTriggerHoldoffMics s) (stepMics s) (tsLastAboveThMics s) (micros e)
    (timer1 s) (triacTriggerPin s) LOW.
Proof.
  intros Hpin Hd. rewrite voltageCrossedThreshold_after_stamp.
  revert Hd. generalize (deltaMics e s). intros delta Hd.
  unfold after_stamp, stamp_edge. rewrite Hpin.
  replace (delta >? halfPeriodMics) with false
    by (symmetry; rewrite Z.gtb_ltb; apply Z.ltb_ge; lia).
  reflexivity.
Qed.

(** A falling edge never touches the timer or the step. *)
Lemma falling_keeps_timer (e : Env) (s : State) :
  digitalRead_VOLTAGE_THR_PIN e = HIGH ->
  timer1 (voltageCrossedThreshold e s) = timer1 s /\
  stepMics (voltageCrossedThreshold e s) = stepMics s.
Proof.
  intros Hpin. rewrite voltageCrossedThreshold_after_stamp.
  unfold after_stamp, stamp_edge. rewrite Hpin.
  destruct (_ >? _); split; reflexivity.
Qed.

(** C5, amended.  On a rising edge with interval at most [halfPeriodMics]
    the below-threshold average becomes [avg + (delta - avg) / 32], the
    other average is kept, the ramp is advanced once, and the trigger is
    scheduled with the delay just returned by [triggerDelay] and with the
    offset [(unsigned int)((avgBelow + 1) / 2)] of the new average: the
    quotient with its fraction cut off.  On a falling edge no trigger is
    scheduled, the ramp is not advanced unless the edge is a soft-start, and
    when the interval is at most [halfPeriodMics] the above-threshold
    average is smoothed in the same way and the other average is kept. *)
Theorem edge_updates_and_schedules (e : Env) (s : State) :
  let s' := voltageCrossedThreshold e s in
  let delta := deltaMics e s in
  match digitalRead_VOLTAGE_THR_PIN e with
  | LOW =>
      delta <= halfPeriodMics ->
      let avg' := smooth (avgBelowThMics s) delta in
      let delay := fst (triggerDelay s) in
      avgBelowThMics s' = avg' /\
      avgAboveThMics s' = avgAboveThMics s /\
      triacTriggerHoldoffMics s' = delay /\
      stepMics s' = stepMics (snd (triggerDelay s)) /\
      timer1 s' =
        timer1 (scheduleTriacTrigger
                  (Word.u16 (F32.trunc (half_of_successor avg'))) delay s)
  | HIGH =>
      timer1 s' = timer1 s /\
      stepMics s' = stepMics s /\
      (delta <= halfPeriodMics ->
       avgAboveThMics s' = smooth (avgAboveThMics s) delta /\
       avgBelowThMics s' = avgBelowThMics s /\
       triacTriggerHoldoffMics s' = triacTriggerHoldoffMics s)
  end.
Proof.
  cbv zeta. destruct (digitalRead_VOLTAGE_THR_PIN e) eqn:Hpin.
  - intros Hd.
    destruct (rising_short_fields e s Hpin Hd) as (B1 & B2 & B3 & B4 & B5 & _).
    rewrite <- zeroCrossOffset_trunc. repeat split; assumption.
  - destruct (falling_keeps_timer e s Hpin) as [T1 T2].
    split; [exact T1 | split; [exact T2 |]]. intros Hd.
    rewrite (falling_short_fields e s Hpin Hd). cbn. repeat split; reflexivity.
Qed.

Lemma edge_updates_and_schedules_witness :
  deltaMics (mkEnv 230 LOW) init <= halfPeriodMics /\
  deltaMics (mkEnv 9600 HIGH) init <= halfPeriodMics /\
  OCR1A (timer1 (voltageCrossedThreshold (mkEnv 230 LOW) init)) = 2231 /\
  avgAboveThMics (voltageCrossedThreshold (mkEnv 9600 HIGH) init) = F32.of_Z 9600.
Proof.
  assert (H1 : deltaMics (mkEnv 230 LOW) init <= halfPeriodMics) by by_computation.
  assert (H2 : deltaMics (mkEnv 9600 HIGH) init <= halfPeriodMics) by by_computation.
  split; [exact H1 |]. split; [exact H2 |]. split.
  - destruct (edge_updates_and_schedules (mkEnv 230 LOW) init H1)
      as (_ & _ & _ & _ & T).
    rewrite T. reflexivity.
  - destruct (edge_updates_and_schedules (mkEnv 9600 HIGH) init)
      as (_ & _ & A).
    destruct (A H2) as (A' & _). rewrite A'. reflexivity.
Defined.

(** ** One average per edge *)

(** C7, as stated, fails: a rising edge 25000 microseconds after the last
    falling edge is a soft-start, and neither average moves, although the
    smoothing step would have changed either of them. *)
Lemma exactly_one_average_updated_fails :
  ~ exactly_one_average_updated (mkEnv 25000 LOW) init.
Proof.
  intros [[H _] | [H _]]; vm_compute in H; discriminate H.
Qed.

(** C7, amended.  On an edge at most one of the two averages is updated.
    When the interval is at most [halfPeriodMics], exactly one is: the
    below-threshold average on a rising edge and the above-threshold average
    on a falling edge, and the other keeps its value.  When the interval
    exceeds [halfPeriodMics], both keep their values. *)
Theorem one_average_per_edge (e : Env) (s : State) :
  let s' := voltageCrossedThreshold e s in
  let delta := deltaMics e s in
  if delta >? halfPeriodMics then
    avgAboveThMics s' = avgAboveThMics s /\
    avgBelowThMics s' = avgBelowThMics s
  else
    match digitalRead_VOLTAGE_THR_PIN e with
    | LOW =>
        avgBelowThMics s' = smooth (avgBelowThMics s) delta /\
        avgAboveThMics s' = avgAboveThMics s
    | HIGH =>
        avgAboveThMics s' = smooth (avgAboveThMics s) delta /\
        avgBelowThMics s' = avgBelowThMics s
    end.
Proof.
  cbv zeta. destruct (deltaMics e s >? halfPeriodMics) eqn:Hgt.
  - apply Z.gtb_lt, Z.lt_gt in Hgt.
    rewrite (voltageCrossedThreshold_long_interval e s Hgt).
    destruct (stamp_edge_frame e s) as (A1 & A2 & _).
    split; assumption.
  - rewrite voltageCrossedThreshold_after_stamp. unfold after_stamp.
    rewrite Hgt.
    destruct (stamp_edge_frame e s) as (A1 & A2 & _).
    destruct (digitalRead_VOLTAGE_THR_PIN e).
    + cbv zeta. cbn [avgBelowThMics set_avgBelow].
      match goal with
      | |- context [scheduleTriacTrigger ?z ?d ?s4] =>
          destruct (scheduleTriacTrigger_frame z d s4) as (G1 & G2 & _)
      end.
      cbv zeta in G1, G2. rewrite G1, G2.
      match goal with
      | |- context [triggerDelay ?s3] =>
          destruct (triggerDelay_frame s3) as (F1 & F2 & _)
      end.
      cbv zeta in F1, F2. rewrite F1, F2. cbn. rewrite A2. split; [reflexivity | exact A1].
    + cbn. rewrite A1. split; [reflexivity | exact A2].
Qed.

(** ** Wrap-around of the microsecond counter *)

Lemma u32_sub_u32 (a b : Z) :
  Word.u32 (Word.u32 a - Word.u32 b) = (a - b) mod 2 ^ 32.
Proof. unfold Word.u32. symmetry. apply Zminus_mod. Qed.

Lemma deltaMics_modular (e : Env) (s : State) (prev : Z) :
  last_opposite e s = Word.u32 prev ->
  deltaMics e s = (clock e - prev) mod 2 ^ 32.
Proof.
  unfold last_opposite, deltaMics, micros.
  destruct (digitalRead_VOLTAGE_THR_PIN e); intros ->; apply u32_sub_u32.
Qed.

Lemma stamp_edge_same (e1 e2 : Env) (s1 s2 : State) :
  digitalRead_VOLTAGE_THR_PIN e1 = digitalRead_VOLTAGE_THR_PIN e2 ->
  same_but_stamps s1 s2 ->
  same_but_stamps (stamp_edge e1 s1) (stamp_edge e2 s2).
Proof.
  unfold stamp_edge, same_but_stamps. intros <- H.
  destruct (digitalRead_VOLTAGE_THR_PIN e1); cbn; intuition.
Qed.

Lemma after_stamp_same (l : Level) (delta : Z) (s1 s2 : State) :
  same_but_stamps s1 s2 ->
  same_but_stamps (after_stamp l delta s1) (after_stamp l delta s2).
Proof.
  destruct s1 as [a1 b1 h1 st1 ta1 tb1 t1 p1 q1].
  destruct s2 as [a2 b2 h2 st2 ta2 tb2 t2 p2 q2].
  unfold same_but_stamps.
  cbn [avgAboveThMics avgBelowThMics triacTriggerHoldoffMics stepMics timer1
       triacTriggerPin detectOutPin].
  intros (-> & -> & -> & -> & -> & -> & ->).
  unfold after_stamp, softStart, triggerDelay, scheduleTriacTrigger.
  cbn [avgAboveThMics avgBelowThMics triacTriggerHoldoffMics stepMics timer1
       triacTriggerPin detectOutPin set_avgAbove set_avgBelow set_holdoff
       set_step set_timer1].
  destruct (delta >? halfPeriodMics); [cbn; repeat split; reflexivity |].
  destruct l; [| cbn; repeat split; reflexivity].
  destruct (_ <=? minDelayMics); [| destruct (_ >=? maxDelayMics)];
    cbn [fst snd avgAboveThMics avgBelowThMics triacTriggerHoldoffMics stepMics
         timer1 triacTriggerPin detectOutPin set_avgAbove set_avgBelow
         set_holdoff set_step set_timer1];
    destruct (_ >? Word.u16 _);
    cbn [avgAboveThMics avgBelowThMics triacTriggerHoldoffMics stepMics
         timer1 triacTriggerPin detectOutPin set_timer1];
    repeat split; reflexivity.
Qed.

(** C9.  The interval of an edge is computed by 32-bit unsigned subtraction
    of the stored time stamp of the last opposite edge from [micros()], so
    for every pair of times it is the elapsed time modulo 2^32, and that is
    the value the handler tests and smooths with.  When the elapsed time is
    below 2^32 microseconds the handler therefore acts on the elapsed time
    itself, whether or not the counter wrapped between the two edges: it
    soft-starts exactly when the elapsed time exceeds [halfPeriodMics], and
    otherwise smooths the average of this direction with the elapsed time.
    Consequently it gives the same result (mains-loss test, averages,
    holdoff, step, timer and pins) as on any other pair of times the same
    interval apart. *)
Theorem wraparound_harmless (e : Env) (s : State) (prev : Z) :
  last_opposite e s = Word.u32 prev ->
  deltaMics e s = (clock e - prev) mod 2 ^ 32 /\
  voltageCrossedThreshold e s =
    after_stamp (digitalRead_VOLTAGE_THR_PIN e) ((clock e - prev) mod 2 ^ 32)
      (stamp_edge e s) /\
  (0 <= clock e - prev < 2 ^ 32 ->
   deltaMics e s = clock e - prev /\
   voltageCrossedThreshold e s =
     after_stamp (digitalRead_VOLTAGE_THR_PIN e) (clock e - prev) (stamp_edge e s) /\
   (clock e - prev > halfPeriodMics ->
    voltageCrossedThreshold e s = softStart (stamp_edge e s) /\
    triacTriggerHoldoffMics (voltageCrossedThreshold e s) = halfPeriodMics /\
    avgAboveThMics (voltageCrossedThreshold e s) = avgAboveThMics s /\
    avgBelowThMics (voltageCrossedThreshold e s) = avgBelowThMics s) /\
   (clock e - prev <= halfPeriodMics ->
    match digitalRead_VOLTAGE_THR_PIN e with
    | LOW =>
        avgBelowThMics (voltageCrossedThreshold e s) =
          smooth (avgBelowThMics s) (clock e - prev) /\
        triacTriggerHoldoffMics (voltageCrossedThreshold e s) =
          fst (triggerDelay s)
    | HIGH =>
        avgAboveThMics (voltageCrossedThreshold e s) =
          smooth (avgAboveThMics s) (clock e - prev) /\
        triacTriggerHoldoffMics (voltageCrossedThreshold e s) =
          triacTriggerHoldoffMics s
    end) /\
   forall (e0 : Env) (s0 : State) (prev0 : Z),
     last_opposite e0 s0 = Word.u32 prev0 ->
     digitalRead_VOLTAGE_THR_PIN e0 = digitalRead_VOLTAGE_THR_PIN e ->
     clock e0 - prev0 = clock e - prev ->
     same_but_stamps s0 s ->
     (deltaMics e0 s0 >? halfPeriodMics) = (deltaMics e s >? halfPeriodMics) /\
     same_but_stamps (voltageCrossedThreshold e0 s0) (voltageCrossedThreshold e s)).
Proof.
  intros Hp. pose proof (deltaMics_modular e s prev Hp) as Hd.
  split; [exact Hd |].
  split; [rewrite voltageCrossedThreshold_after_stamp, Hd; reflexivity |].
  intros Hr.
  assert (Hd' : deltaMics e s = clock e - prev)
    by (rewrite Hd; apply Z.mod_small; exact Hr).
  split; [exact Hd' |].
  split; [rewrite voltageCrossedThreshold_after_stamp, Hd'; reflexivity |].
  split; [| split].
  - intros Hgt. rewrite <- Hd' in Hgt.
    rewrite (voltageCrossedThreshold_long_interval e s Hgt).
    destruct (stamp_edge_frame e s) as (A1 & A2 & _).
    split; [reflexivity |]. split; [reflexivity |]. split; assumption.
  - intros Hle. rewrite <- Hd' in Hle |- *.
    destruct (digitalRead_VOLTAGE_THR_PIN e) eqn:Hpin.
    + destruct (rising_short_fields e s Hpin Hle) as (B1 & _ & B3 & _).
      split; assumption.
    + rewrite (falling_short_fields e s Hpin Hle). split; reflexivity.
  - intros e0 s0 prev0 Hp0 Hpin Hsame Hs.
    pose proof (deltaMics_modular e0 s0 prev0 Hp0) as Hd0.
    rewrite Hsame, <- Hd in Hd0.
    rewrite !voltageCrossedThreshold_after_stamp, Hd0, Hpin.
    split; [reflexivity |].
    apply after_stamp_same, stamp_edge_same; assumption.
Qed.

Lemma wraparound_harmless_witness :
  let wrapped := set_tsLastBelow init (Word.u32 4294967196) in
  let plain := set_tsLastBelow init (Word.u32 1000) in
  deltaMics (mkEnv 4294967596 LOW) wrapped = 400 /\
  micros (mkEnv 4294967596 LOW) = 300 /\
  avgBelowThMics (voltageCrossedThreshold (mkEnv 4294967596 LOW) wrapped) =
    smooth (F32.of_Z 150) 400 /\
  triacTriggerHoldoffMics
    (voltageCrossedThreshold (mkEnv 4294967596 LOW) wrapped) = 9000 /\
  triacTriggerHoldoffMics
    (voltageCrossedThreshold (mkEnv 4295033132 LOW) wrapped) = 10000 /\
  same_but_stamps (voltageCrossedThreshold (mkEnv 1400 LOW) plain)
                  (voltageCrossedThreshold (mkEnv 4294967596 LOW) wrapped).
Proof.
  intros wrapped plain.
  destruct (wraparound_harmless (mkEnv 4294967596 LOW) wrapped 4294967196
              ltac:(reflexivity)) as (_ & _ & H).
  destruct (H ltac:(by_computation)) as (H1 & _ & _ & H3 & H4).
  destruct (H3 ltac:(by_computation)) as [H3a H3b].
  destruct (wraparound_harmless (mkEnv 4295033132 LOW) wrapped 4294967196
              ltac:(reflexivity)) as (_ & _ & L).
  destruct (L ltac:(by_computation)) as (_ & _ & L2 & _).
  destruct (L2 ltac:(by_computation)) as (_ & L2b & _).
  split; [exact H1 |]. split; [reflexivity |].
  split; [exact H3a |]. split; [rewrite H3b; reflexivity |].
  split; [exact L2b |].
  apply (H4 (mkEnv 1400 LOW) plain 1000);
    [reflexivity | reflexivity | reflexivity | by_computation].
Defined.

(** ** Ideal 50 Hz mains *)

Lemma after_delays_succ (n : nat) :
  forall s, after_delays (S n) s = snd (triggerDelay (after_delays n s)).
Proof.
  induction n as [| n IH]; intros s; [reflexivity |].
  change (after_delays (S (S n)) s) with (after_delays (S n) (snd (triggerDelay s))).
  rewrite IH. reflexivity.
Qed.

Lemma below_after_succ (n : nat) :
  (1 <= n)%nat -> below_after (S n) = smooth (below_after n) 400.
Proof. destruct n as [| n]; [lia | reflexivity]. Qed.

Lemma checked_upto_spec (n : nat) :
  checked_upto n = true ->
  forall m, (1 <= m <= n)%nat -> below_checked m (below_after m) = true.
Proof.
  induction n as [| n IH]; intros H m Hm; [lia |].
  change (checked_upto (S n))
    with (below_checked (S n) (below_after (S n)) && checked_upto n) in H.
  apply andb_prop in H. destruct H as [H1 H2].
  destruct (Nat.eq_dec m (S n)) as [-> | Hne]; [exact H1 |].
  apply IH; [exact H2 | lia].
Qed.

Lemma checked_upto_settled : checked_upto settled = true.
Proof. vm_compute. reflexivity. Qed.

Lemma below_after_stops : below_after (S settled) = below_after settled.
Proof. vm_compute. reflexivity. Qed.

Lemma below_after_settled (n : nat) :
  (settled <= n)%nat -> below_after n = below_after settled.
Proof.
  induction 1 as [| m Hm IH]; [reflexivity |].
  rewrite below_after_succ by (unfold settled in Hm; lia).
  rewrite IH, <- below_after_succ by (unfold settled; lia).
  exact below_after_stops.
Qed.

Lemma below_after_bounds (n : nat) :
  (32 <= n)%nat ->
  F32.leb (F32.of_Z 300) (below_after n) = true /\
  F32.leb (below_after n) (F32.of_Z 400) = true.
Proof.
  intros Hn.
  assert (H : below_checked n (below_after n) = true).
  { destruct (le_lt_dec n settled) as [Hle | Hgt].
    - apply (checked_upto_spec settled checked_upto_settled). lia.
    - rewrite below_after_settled by lia.
      pose proof (checked_upto_spec settled checked_upto_settled settled
                    ltac:(unfold settled; lia)) as Hs.
      unfold below_checked in *.
      replace (n <? 32)%nat with false by (symmetry; apply Nat.ltb_ge; lia).
      replace (settled <? 32)%nat with false in Hs by reflexivity.
      exact Hs. }
  unfold below_checked in H.
  replace (n <? 32)%nat with false in H by (symmetry; apply Nat.ltb_ge; lia).
  cbn [orb] in H. apply andb_prop in H. exact H.
Qed.

Lemma smooth_9600_stays : smooth (F32.of_Z 9600) 9600 = F32.of_Z 9600.
Proof. vm_compute. reflexivity. Qed.

Lemma cycle_inv_step (n : nat) (s : State) :
  (1 <= n)%nat -> cycle_inv n s ->
  let s' := mains_cycle (Z.of_nat n) s in
  cycle_inv (S n) s' /\
  timer1 s' =
    mkTimer1 0 0
      (Z.max 4 ((triacTriggerHoldoffMics s' - zeroCrossOffset (avgBelowThMics s')) / 4))
      11.
Proof.
  intros Hn (I1 & I2 & I3 & I4 & I5 & I6). cbv zeta. unfold mains_cycle.
  set (k := Z.of_nat n).
  (* the rising edge measures 400 *)
  assert (Dr : deltaMics (rising_edge k) s = 400).
  { rewrite (deltaMics_modular (rising_edge k) s (10000 * (k - 1) + 9600)) by exact I6.
    cbn [clock rising_edge].
    replace (10000 * k - (10000 * (k - 1) + 9600)) with 400 by lia. reflexivity. }
  destruct (rising_short_fields (rising_edge k) s eq_refl)
    as (R1 & R2 & R3 & R4 & R5 & R6 & R7 & R8 & R9);
    [rewrite Dr; by_computation |].
  rewrite Dr in R1, R5.
  set (r := voltageCrossedThreshold (rising_edge k) s) in *.
  (* the falling edge measures 9600 *)
  assert (Df : deltaMics (falling_edge k) r = 9600).
  { rewrite (deltaMics_modular (falling_edge k) r (10000 * k)) by exact R6.
    cbn [clock falling_edge].
    replace (10000 * k + 9600 - 10000 * k) with 9600 by lia. reflexivity. }
  rewrite (falling_short_fields (falling_edge k) r eq_refl)
    by (rewrite Df; by_computation).
  rewrite Df. unfold cycle_inv.
  cbn [avgAboveThMics avgBelowThMics triacTriggerHoldoffMics stepMics
       tsLastAboveThMics tsLastBelowThMics timer1].
  destruct (triggerDelay_ext s (after_delays n init) I3 I4) as (E1 & _ & E3).
  destruct (triggerDelay_range (after_delays n init)) as [Rg Rh].
  rewrite R1, R2, R3, R4, R5, R6, I1, I2, E1, E3, after_delays_succ, Rh.
  rewrite <- below_after_succ by exact Hn.
  assert (Hk : k = Z.of_nat (S n) - 1) by (unfold k; lia).
  split; [split; [exact smooth_9600_stays | repeat split] |].
  - unfold micros. cbn [clock rising_edge]. rewrite Hk. reflexivity.
  - unfold micros. cbn [clock falling_edge]. rewrite Hk. reflexivity.
  - apply scheduleTriacTrigger_armed.
    + apply WordFacts.u16_range.
    + rewrite maxDelayMics_eq in Rg. lia.
Qed.

Lemma ideal_mains_inv (n : nat) :
  (1 <= n)%nat ->
  cycle_inv n (ideal_mains n) /\
  timer1 (ideal_mains n) =
    mkTimer1 0 0
      (Z.max 4 ((triacTriggerHoldoffMics (ideal_mains n)
                 - zeroCrossOffset (avgBelowThMics (ideal_mains n))) / 4))
      11.
Proof.
  induction 1 as [| m Hm IH].
  - by_computation.
  - destruct IH as [IH _].
    change (ideal_mains (S m)) with (mains_cycle (Z.of_nat m) (ideal_mains m)).
    exact (cycle_inv_step m (ideal_mains m) Hm IH).
Qed.

(** The ramp advances once per cycle. *)
Lemma ideal_mains_ramp (n : nat) :
  triacTriggerHoldoffMics (ideal_mains n) =
    triacTriggerHoldoffMics (after_delays n init) /\
  stepMics (ideal_mains n) = stepMics (after_delays n init).
Proof.
  destruct n as [| m]; [split; reflexivity |].
  destruct (ideal_mains_inv (S m) ltac:(lia)) as [(_ & _ & I3 & I4 & _) _].
  split; assumption.
Qed.

(** C8, as stated, fails.  With these edges the voltage is above the
    threshold for 9600 microseconds and below it for 400, so after 32
    cycles the above-threshold average is still 9600 (not near 150) and
    the below-threshold average is about 305, on its way from 150 to 400
    (not near 9600). *)
Lemma ideal_mains_sentence_fails :
  ~ ideal_mains_sentence /\
  near (avgBelowThMics (ideal_mains 32)) 9600 = false /\
  near (avgAboveThMics (ideal_mains 32)) 150 = false.
Proof.
  assert (H : near (avgBelowThMics (ideal_mains 32)) 9600 = false)
    by (vm_compute; reflexivity).
  split; [| split; [exact H | vm_compute; reflexivity]].
  intros S. destruct (S 32%nat (le_n 32)) as [S1 _]. congruence.
Qed.

(** C8, amended.  When rising edges are fed at 0, 10000, 20000, ...
    microseconds and falling edges at 9600, 19600, ..., then after every
    cycle the above-threshold average is exactly 9600; after 32 or more
    cycles the below-threshold average lies between 300 and 400 (it climbs
    from 150 towards the 400 microseconds the voltage spends below the
    threshold); and the delay scheduled in cycle [n] is the [n]-th value of
    the ramp from the initial state: the previous holdoff plus the signed
    step, clamped to [200, 9000], with the step negated at the clamps, and
    timer 1 is armed for it. *)
Theorem ideal_mains_converges (n : nat) :
  (1 <= n)%nat ->
  let s := ideal_mains n in
  let prev := ideal_mains (n - 1) in
  let sum := triacTriggerHoldoffMics prev + stepMics prev in
  triacTriggerHoldoffMics s = fst (triggerDelay (after_delays (n - 1) init)) /\
  triacTriggerHoldoffMics s = Z.max 200 (Z.min 9000 sum) /\
  stepMics s = (if (200 <? sum) && (sum <? 9000)
                then stepMics prev else - stepMics prev) /\
  minDelayMics <= triacTriggerHoldoffMics s <= maxDelayMics /\
  timer1 s =
    mkTimer1 0 0
      (Z.max 4 ((triacTriggerHoldoffMics s - zeroCrossOffset (avgBelowThMics s)) / 4))
      11 /\
  avgAboveThMics s = F32.of_Z 9600 /\
  ((32 <= n)%nat ->
   F32.leb (F32.of_Z 300) (avgBelowThMics s) = true /\
   F32.leb (avgBelowThMics s) (F32.of_Z 400) = true).
Proof.
  intros Hn. cbv zeta.
  destruct (ideal_mains_inv n Hn) as [(I1 & I2 & I3 & I4 & _) T].
  destruct n as [| m]; [lia |].
  replace (S m - 1)%nat with m by lia.
  destruct (ideal_mains_ramp m) as [P1 P2].
  rewrite after_delays_succ in I3, I4.
  destruct (triggerDelay_range (after_delays m init)) as [Rg Rh].
  destruct (after_delays_ramp_ok m init init_ramp_ok) as [Hok _].
  pose proof (triggerDelay_ramp _ Hok) as Hr. cbv zeta in Hr.
  rewrite maxDelayMics_eq in Hr. unfold minDelayMics in Hr.
  rewrite Rh in I3.
  split; [exact I3 |].
  split; [rewrite I3, Hr, P1, P2; reflexivity |].
  split; [rewrite I4, Hr, P1, P2; reflexivity |].
  split; [rewrite I3; exact Rg |].
  split; [exact T |]. split; [exact I1 |].
  intros H32. rewrite I2. apply below_after_bounds, H32.
Qed.

Lemma ideal_mains_converges_witness :
  (1 <= 40)%nat /\ (32 <= 40)%nat /\
  triacTriggerHoldoffMics (ideal_mains 40) = 8354 /\
  F32.leb (F32.of_Z 300) (avgBelowThMics (ideal_mains 40)) = true.
Proof.
  assert (H1 : (1 <= 40)%nat) by lia.
  assert (H32 : (32 <= 40)%nat) by lia.
  destruct (ideal_mains_converges 40 H1) as (D & _ & _ & _ & _ & _ & B).
  split; [exact H1 |]. split; [exact H32 |]. split.
  - rewrite D. vm_compute. reflexivity.
  - exact (proj1 (B H32)).
Defined.


(** * Further properties of the sketch *)

(** ** Every short rising edge arms the timer *)

(** A short rising edge programs the timer for the delay it just drew. *)
Lemma rising_short_armed (e : Env) (s : State) :
  digitalRead_VOLTAGE_THR_PIN e = LOW ->
  deltaMics e s <= halfPeriodMics ->
  let s' := voltageCrossedThreshold e s in
  let d := triacTriggerHoldoffMics s' in
  d = fst (triggerDelay s) /\
  0 <= zeroCrossOffset (avgBelowThMics s') /\
  timer1 s' =
    mkTimer1 0 0 (Z.max 4 ((d - zeroCrossOffset (avgBelowThMics s')) / 4)) 11.
Proof.
  intros Hpin Hd. cbv zeta.
  destruct (rising_short_fields e s Hpin Hd) as (B1 & _ & B3 & _ & B5 & _).
  destruct (triggerDelay_range s) as [Rg _].
  rewrite maxDelayMics_eq in Rg.
  assert (Hz : 0 <= zeroCrossOffset (smooth (avgBelowThMics s) (deltaMics e s)))
    by (apply WordFacts.u16_range).
  rewrite B5, B3, B1.
  rewrite scheduleTriacTrigger_armed by lia.
  repeat split; try reflexivity. exact Hz.
Qed.

(** X1.  On every rising edge with an interval of at most [halfPeriodMics],
    from any state, the trigger is really scheduled: the delay handed to the
    scheduler is between 200 and 9000, below the cutoff, so the skip branch
    is not taken; timer 1 is cleared and started with a compare value
    between 4 and 2250 ticks. *)
Theorem rising_edge_always_arms (e : Env) (s : State) :
  digitalRead_VOLTAGE_THR_PIN e = LOW ->
  deltaMics e s <= halfPeriodMics ->
  let s' := voltageCrossedThreshold e s in
  let d := triacTriggerHoldoffMics s' in
  d = fst (triggerDelay s) /\
  minDelayMics <= d <= maxDelayMics /\
  timer1 s' =
    mkTimer1 0 0 (Z.max 4 ((d - zeroCrossOffset (avgBelowThMics s')) / 4)) 11 /\
  4 <= OCR1A (timer1 s') <= 2250.
Proof.
  intros Hpin Hd. cbv zeta.
  destruct (rising_short_armed e s Hpin Hd) as (D & Hz & T).
  destruct (triggerDelay_range s) as [Rg _].
  split; [exact D |]. split; [rewrite D; exact Rg |]. split; [exact T |].
  rewrite T. cbn [OCR1A].
  rewrite maxDelayMics_eq in Rg. unfold minDelayMics in Rg. rewrite <- D in Rg.
  assert ((triacTriggerHoldoffMics (voltageCrossedThreshold e s)
           - zeroCrossOffset (avgBelowThMics (voltageCrossedThreshold e s))) / 4
          <= 2250)
    by (apply Z.div_le_upper_bound; lia).
  lia.
Qed.

Lemma rising_edge_always_arms_witness :
  digitalRead_VOLTAGE_THR_PIN (mkEnv 230 LOW) = LOW /\
  deltaMics (mkEnv 230 LOW) init <= halfPeriodMics /\
  TCCR1B (timer1 (voltageCrossedThreshold (mkEnv 230 LOW) init)) = 11.
Proof.
  assert (H : deltaMics (mkEnv 230 LOW) init <= halfPeriodMics) by by_computation.
  split; [reflexivity |]. split; [exact H |].
  destruct (rising_edge_always_arms (mkEnv 230 LOW) init eq_refl H) as (_ & _ & T & _).
  rewrite T. reflexivity.
Defined.

(** ** How exact the programmed wait is *)

(** X2.  For a request below the cutoff the programmed wait of 4 * OCR1A
    microseconds is never longer than the remaining time [delayMics -
    micsSinceZeroCross] and at most 3 microseconds shorter, as long as that
    time is at least 16 microseconds; when it is shorter, zero or negative
    (the offset already exceeds the delay) the wait is the minimum of 4
    ticks.  The compare value never exceeds 2422 ticks. *)
Theorem programmed_wait_accuracy (z d : Z) (s : State) :
  0 <= z -> d <= 9688 ->
  let ticks := OCR1A (timer1 (scheduleTriacTrigger z d s)) in
  4 <= ticks <= 2422 /\
  (d - z < 16 -> ticks = 4) /\
  (16 <= d - z -> d - z - 3 <= 4 * ticks <= d - z).
Proof.
  intros Hz Hd. cbv zeta.
  rewrite (scheduleTriacTrigger_armed z d s Hz Hd). cbn [OCR1A].
  assert (Hq : (d - z) / 4 <= 2422) by (apply Z.div_le_upper_bound; lia).
  pose proof (Z.div_mod (d - z) 4 ltac:(lia)) as Hdm.
  pose proof (Z.mod_pos_bound (d - z) 4 ltac:(lia)) as Hm.
  repeat split; intros; lia.
Qed.

Lemma programmed_wait_accuracy_witness :
  OCR1A (timer1 (scheduleTriacTrigger 76 9000 init)) = 2231 /\
  OCR1A (timer1 (scheduleTriacTrigger 300 200 init)) = 4.
Proof.
  destruct (programmed_wait_accuracy 76 9000 init ltac:(lia) ltac:(lia))
    as (_ & _ & H1).
  destruct (programmed_wait_accuracy 300 200 init ltac:(lia) ltac:(lia))
    as (_ & H2 & _).
  specialize (H1 ltac:(lia)).
  split; [lia | apply H2; lia].
Defined.

(** ** What the running program keeps *)

(** The edge handler never touches the gate, and apart from the interval
    logic only does the bookkeeping of [stamp_edge]. *)
Lemma voltageCrossedThreshold_bookkeeping (e : Env) (s : State) :
  let s' := voltageCrossedThreshold e s in
  triacTriggerPin s' = triacTriggerPin s /\
  tsLastAboveThMics s' = tsLastAboveThMics (stamp_edge e s) /\
  tsLastBelowThMics s' = tsLastBelowThMics (stamp_edge e s) /\
  detectOutPin s' = detectOutPin (stamp_edge e s).
Proof.
  cbv zeta. rewrite voltageCrossedThreshold_after_stamp.
  destruct (stamp_edge_frame e s) as (_ & _ & _ & _ & _ & A6). rewrite <- A6.
  generalize (stamp_edge e s) (deltaMics e s). intros s2 delta.
  unfold after_stamp. destruct (delta >? halfPeriodMics).
  - cbn. repeat split; reflexivity.
  - destruct (digitalRead_VOLTAGE_THR_PIN e).
    + cbv zeta.
      match goal with
      | |- context [scheduleTriacTrigger ?z ?d ?s4] =>
          destruct (scheduleTriacTrigger_frame z d s4)
            as (_ & _ & _ & _ & G5 & G6 & G7 & G8)
      end.
      cbv zeta in G5, G6, G7, G8. rewrite G5, G6, G7, G8.
      match goal with
      | |- context [triggerDelay ?s3] =>
          destruct (triggerDelay_frame s3) as (_ & _ & F3 & F4 & _ & F6 & F7)
      end.
      cbv zeta in F3, F4, F6, F7. rewrite F3, F4, F6, F7.
      cbn. repeat split; reflexivity.
    + cbn. repeat split; reflexivity.
Qed.

(** After an edge the timer is as before, or freshly armed. *)
Lemma voltageCrossedThreshold_timer (e : Env) (s : State) :
  timer1 (voltageCrossedThreshold e s) = timer1 s \/
  exists ocr, 4 <= ocr <= 2250 /\
    timer1 (voltageCrossedThreshold e s) = mkTimer1 0 0 ocr 11.
Proof.
  destruct (digitalRead_VOLTAGE_THR_PIN e) eqn:Hpin.
  - destruct (Z_le_gt_dec (deltaMics e s) halfPeriodMics) as [Hd | Hd].
    + right.
      destruct (rising_short_fields e s Hpin Hd) as (B1 & _ & B3 & _ & B5 & _).
      destruct (triggerDelay_range s) as [Rg _].
      rewrite maxDelayMics_eq in Rg. unfold minDelayMics in Rg.
      set (z := zeroCrossOffset (smooth (avgBelowThMics s) (deltaMics e s))) in *.
      assert (Hz : 0 <= z) by (apply WordFacts.u16_range).
      rewrite B5, scheduleTriacTrigger_armed by lia.
      exists (Z.max 4 ((fst (triggerDelay s) - z) / 4)). split; [| reflexivity].
      assert ((fst (triggerDelay s) - z) / 4 <= 2250)
        by (apply Z.div_le_upper_bound; lia).
      lia.
    + left. rewrite (voltageCrossedThreshold_long_interval e s Hd).
      destruct (stamp_edge_frame e s) as (_ & _ & _ & _ & A5 & _). exact A5.
  - left. apply (falling_keeps_timer e s Hpin).
Qed.

Lemma stamp_edge_stamps_in_range (e : Env) (s : State) :
  0 <= tsLastAboveThMics s < 2 ^ 32 ->
  0 <= tsLastBelowThMics s < 2 ^ 32 ->
  0 <= tsLastAboveThMics (stamp_edge e s) < 2 ^ 32 /\
  0 <= tsLastBelowThMics (stamp_edge e s) < 2 ^ 32.
Proof.
  intros Ha Hb. unfold stamp_edge, micros.
  pose proof (WordFacts.u32_range (clock e)) as Hr.
  change 4294967296 with (2 ^ 32) in Hr.
  destruct (digitalRead_VOLTAGE_THR_PIN e); cbn; split; assumption.
Qed.

(** X3.  In every state the running program reaches (from initialisation,
    through any sequence of edges and timer expiries) the gate pin is
    released (HIGH) on return from the handlers, control register A is 0,
    the timer is either stopped or running in the one armed configuration,
    and whenever it runs its compare value is between 4 and 2250 ticks (16
    microseconds to 9 milliseconds); both stored time stamps are 32-bit
    values. *)
Theorem running_program_invariant (s : State) :
  handler_reachable s ->
  triacTriggerPin s = HIGH /\
  TCCR1A (timer1 s) = 0 /\
  (TCCR1B (timer1 s) = 0 \/
   (TCCR1B (timer1 s) = 11 /\ 4 <= OCR1A (timer1 s) <= 2250)) /\
  0 <= tsLastAboveThMics s < 2 ^ 32 /\
  0 <= tsLastBelowThMics s < 2 ^ 32.
Proof.
  induction 1 as [| e s _ IH | s _ IH].
  - cbn. repeat split; try reflexivity; try lia; try (left; reflexivity).
  - destruct IH as (I1 & I2 & I3 & I4 & I5).
    destruct (voltageCrossedThreshold_bookkeeping e s) as (B1 & B2 & B3 & _).
    destruct (stamp_edge_stamps_in_range e s I4 I5) as [S1 S2].
    rewrite B1, B2, B3.
    destruct (voltageCrossedThreshold_timer e s) as [-> | (ocr & Ho & ->)].
    + repeat first [assumption | split].
    + cbn [timer1 TCCR1A TCCR1B OCR1A].
      split; [exact I1 | split; [reflexivity | split; [right; lia |]]].
      split; assumption.
  - destruct IH as (I1 & I2 & I3 & I4 & I5).
    cbn [TIMER1_COMPA_vect timer1 set_timer1 set_triacTriggerPin TCCR1A TCCR1B
         triacTriggerPin tsLastAboveThMics tsLastBelowThMics].
    split; [reflexivity | split; [reflexivity | split; [left; reflexivity |]]].
    split; assumption.
Qed.

Lemma running_program_invariant_witness :
  handler_reachable
    (TIMER1_COMPA_vect (voltageCrossedThreshold (mkEnv 230 LOW) init)) /\
  triacTriggerPin
    (TIMER1_COMPA_vect (voltageCrossedThreshold (mkEnv 230 LOW) init)) = HIGH.
Proof.
  assert (H : handler_reachable
                (TIMER1_COMPA_vect (voltageCrossedThreshold (mkEnv 230 LOW) init)))
    by (apply hreach_expiry, hreach_edge, hreach_init).
  split; [exact H |].
  exact (proj1 (running_program_invariant _ H)).
Defined.

(** ** The timer interrupt and the edge handler do not interfere *)

(** X4.  Whether the timer expires just before or just after an edge makes
    no difference to anything but the timer: both orders give the same
    averages, holdoff, step, time stamps and pins, with the gate released.
    Only the timer differs: an expiry after the edge leaves it stopped,
    while an edge after the expiry leaves it stopped or freshly armed. *)
Theorem expiry_commutes_with_edge (e : Env) (s : State) :
  let a := voltageCrossedThreshold e (TIMER1_COMPA_vect s) in
  let b := TIMER1_COMPA_vect (voltageCrossedThreshold e s) in
  avgAboveThMics a = avgAboveThMics b /\
  avgBelowThMics a = avgBelowThMics b /\
  triacTriggerHoldoffMics a = triacTriggerHoldoffMics b /\
  stepMics a = stepMics b /\
  tsLastAboveThMics a = tsLastAboveThMics b /\
  tsLastBelowThMics a = tsLastBelowThMics b /\
  detectOutPin a = detectOutPin b /\
  triacTriggerPin a = HIGH /\ triacTriggerPin b = HIGH /\
  TCCR1B (timer1 b) = 0 /\
  (TCCR1B (timer1 a) = 0 \/ TCCR1B (timer1 a) = 11).
Proof.
  cbv zeta. destruct s as [a0 b0 h st ta tb t p q].
  unfold voltageCrossedThreshold, TIMER1_COMPA_vect, softStart, triggerDelay,
    scheduleTriacTrigger.
  cbn [avgAboveThMics avgBelowThMics triacTriggerHoldoffMics stepMics timer1
       tsLastAboveThMics tsLastBelowThMics triacTriggerPin detectOutPin
       set_avgAbove set_avgBelow set_holdoff set_step set_timer1
       set_tsLastAbove set_tsLastBelow set_triacTriggerPin set_detectOutPin].
  destruct (digitalRead_VOLTAGE_THR_PIN e);
    destruct (_ >? halfPeriodMics);
    try (cbn; repeat split; try reflexivity; left; reflexivity).
  destruct (_ <=? minDelayMics); [| destruct (_ >=? maxDelayMics)];
    cbn [fst snd avgAboveThMics avgBelowThMics triacTriggerHoldoffMics stepMics
         timer1 tsLastAboveThMics tsLastBelowThMics triacTriggerPin
         detectOutPin set_avgAbove set_avgBelow set_holdoff set_step
         set_timer1];
    destruct (_ >? Word.u16 _);
    cbn [avgAboveThMics avgBelowThMics triacTriggerHoldoffMics stepMics
         timer1 tsLastAboveThMics tsLastBelowThMics triacTriggerPin
         detectOutPin set_timer1 set_triacTriggerPin TCCR1B TCNT1 OCR1A TCCR1A];
    repeat split; try reflexivity;
    first [left; reflexivity | right; reflexivity].
Qed.

(** ** Measuring the interval *)

Lemma last_opposite_after_edge (e1 e2 : Env) (s : State) :
  digitalRead_VOLTAGE_THR_PIN e1 <> digitalRead_VOLTAGE_THR_PIN e2 ->
  last_opposite e2 (voltageCrossedThreshold e1 s) = micros e1.
Proof.
  intros Hne.
  destruct (voltageCrossedThreshold_bookkeeping e1 s) as (_ & B2 & B3 & _).
  unfold last_opposite, stamp_edge in *.
  destruct (digitalRead_VOLTAGE_THR_PIN e1), (digitalRead_VOLTAGE_THR_PIN e2);
    try congruence; [rewrite B2 | rewrite B3]; reflexivity.
Qed.

Lemma last_opposite_kept (m e2 : Env) (s : State) :
  digitalRead_VOLTAGE_THR_PIN m = digitalRead_VOLTAGE_THR_PIN e2 ->
  last_opposite e2 (voltageCrossedThreshold m s) = last_opposite e2 s.
Proof.
  intros Heq.
  destruct (voltageCrossedThreshold_bookkeeping m s) as (_ & B2 & B3 & _).
  unfold last_opposite, stamp_edge in *. rewrite <- Heq.
  destruct (digitalRead_VOLTAGE_THR_PIN m); [rewrite B3 | rewrite B2]; reflexivity.
Qed.

Lemma last_opposite_run_edges (mids : list Env) (e2 : Env) :
  Forall (fun m => digitalRead_VOLTAGE_THR_PIN m = digitalRead_VOLTAGE_THR_PIN e2)
    mids ->
  forall s, last_opposite e2 (run_edges mids s) = last_opposite e2 s.
Proof.
  induction 1 as [| m mids Hm _ IH]; intros s; [reflexivity |].
  cbn [run_edges]. rewrite IH. apply last_opposite_kept, Hm.
Qed.

(** X5.  The interval an edge measures is the time elapsed since the most
    recent edge of the other direction, whatever that edge did (smoothing or
    soft-start) and however many edges of the same direction came in
    between: a repeated rising edge still measures from the last falling
    edge.  This holds across a wrap of [micros()] as long as the elapsed
    time is below 2^32 microseconds. *)
Theorem interval_is_elapsed_time (s : State) (e1 : Env) (mids : list Env) (e2 : Env) :
  digitalRead_VOLTAGE_THR_PIN e1 <> digitalRead_VOLTAGE_THR_PIN e2 ->
  Forall (fun m => digitalRead_VOLTAGE_THR_PIN m = digitalRead_VOLTAGE_THR_PIN e2)
    mids ->
  0 <= clock e2 - clock e1 < 2 ^ 32 ->
  deltaMics e2 (run_edges mids (voltageCrossedThreshold e1 s)) = clock e2 - clock e1.
Proof.
  intros Hne Hmids Hr.
  rewrite (deltaMics_modular e2 _ (clock e1)).
  - apply Z.mod_small, Hr.
  - rewrite (last_opposite_run_edges mids e2 Hmids).
    apply last_opposite_after_edge, Hne.
Qed.

Lemma interval_is_elapsed_time_witness :
  deltaMics (mkEnv 4294967596 LOW)
    (run_edges [mkEnv 4294967250 LOW]
       (voltageCrossedThreshold (mkEnv 4294967196 HIGH) init)) = 400.
Proof.
  apply (interval_is_elapsed_time init (mkEnv 4294967196 HIGH)
           [mkEnv 4294967250 LOW] (mkEnv 4294967596 LOW)).
  - discriminate.
  - repeat constructor.
  - by_computation.
Defined.

(** ** Restarting after a mains loss *)

Lemma after_delays_1 (s : State) : after_delays 1 s = snd (triggerDelay s).
Proof. reflexivity. Qed.

Lemma softStart_fields (s : State) :
  triacTriggerHoldoffMics (softStart s) = 10000 /\
  stepMics (softStart s) = stepMics s.
Proof. split; reflexivity. Qed.

(** A call at or above the upper clamp that does not come down below it
    returns 9000 and reverses the step. *)
Lemma triggerDelay_turns_at_top (s : State) :
  ramp_ok s ->
  9000 <= triacTriggerHoldoffMics s + stepMics s ->
  fst (triggerDelay s) = 9000 /\
  ramp_of (snd (triggerDelay s)) = (9000, - stepMics s).
Proof.
  intros Hok Hsum. pose proof (triggerDelay_ramp s Hok) as H. cbv zeta in H.
  rewrite maxDelayMics_eq in H. unfold minDelayMics in H.
  replace (triacTriggerHoldoffMics s + stepMics s <? 9000) with false in H
    by (symmetry; apply Z.ltb_ge; lia).
  rewrite andb_false_r, Z.min_l, Z.max_r in H by lia.
  rewrite H. split; reflexivity.
Qed.

(** X6.  After [softStart] the next delay is [maxDelayMics] = 9000 whatever
    the direction of the ramp was, and the call reverses the step.  When the
    ramp was going down, the call after that returns 9000 once more and
    restores the downward step, so in both cases the ramp then leaves 9000
    downwards. *)
Theorem soft_start_restarts_ramp (s : State) :
  Z.abs (stepMics s) <= 200 ->
  fst (triggerDelay (softStart s)) = 9000 /\
  ramp_of (after_delays 1 (softStart s)) = (9000, - stepMics s) /\
  (stepMics s < 0 ->
   fst (triggerDelay (after_delays 1 (softStart s))) = 9000 /\
   ramp_of (after_delays 2 (softStart s)) = (9000, stepMics s)).
Proof.
  intros Hs. destruct (softStart_fields s) as [F1 F2].
  assert (Hok : ramp_ok (softStart s))
    by (unfold ramp_ok, minDelayMics, halfPeriodMics; rewrite F1, F2; lia).
  destruct (triggerDelay_turns_at_top _ Hok) as [T1 T2]; [rewrite F1, F2; lia |].
  rewrite F2 in T2. rewrite after_delays_1.
  split; [exact T1 |]. split; [exact T2 |].
  intros Hneg. injection T2 as T2h T2s.
  set (s1 := snd (triggerDelay (softStart s))) in *.
  assert (Hok1 : ramp_ok s1)
    by (unfold ramp_ok, minDelayMics, halfPeriodMics; rewrite T2h, T2s; lia).
  destruct (triggerDelay_turns_at_top _ Hok1) as [U1 U2]; [rewrite T2h, T2s; lia |].
  rewrite T2s, Z.opp_involutive in U2.
  change (after_delays 2 (softStart s)) with (after_delays 1 s1).
  rewrite after_delays_1. split; assumption.
Qed.

Lemma soft_start_restarts_ramp_witness :
  Z.abs (stepMics init) <= 200 /\ stepMics init < 0 /\
  ramp_of (after_delays 2 (softStart init)) = (9000, -17).
Proof.
  assert (H : Z.abs (stepMics init) <= 200) by by_computation.
  assert (Hneg : stepMics init < 0) by reflexivity.
  split; [exact H |]. split; [exact Hneg |].
  exact (proj2 (proj2 (proj2 (soft_start_restarts_ramp init H)) Hneg)).
Defined.



(** ** The ramp repeats *)

Lemma triggerDelay_steps_inside (s : State) :
  ramp_ok s ->
  200 < triacTriggerHoldoffMics s + stepMics s < 9000 ->
  fst (triggerDelay s) = triacTriggerHoldoffMics s + stepMics s /\
  ramp_of (snd (triggerDelay s)) =
    (triacTriggerHoldoffMics s + stepMics s, stepMics s).
Proof.
  intros Hok Hsum. pose proof (triggerDelay_ramp s Hok) as H. cbv zeta in H.
  rewrite maxDelayMics_eq in H. unfold minDelayMics in H.
  replace (200 <? triacTriggerHoldoffMics s + stepMics s) with true in H
    by (symmetry; apply Z.ltb_lt; lia).
  replace (triacTriggerHoldoffMics s + stepMics s <? 9000) with true in H
    by (symmetry; apply Z.ltb_lt; lia).
  rewrite Z.min_r, Z.max_r in H by lia.
  rewrite H. split; reflexivity.
Qed.

Lemma triggerDelay_turns_at_bottom (s : State) :
  ramp_ok s ->
  triacTriggerHoldoffMics s + stepMics s <= 200 ->
  fst (triggerDelay s) = 200 /\
  ramp_of (snd (triggerDelay s)) = (200, - stepMics s).
Proof.
  intros Hok Hsum. pose proof (triggerDelay_ramp s Hok) as H. cbv zeta in H.
  rewrite maxDelayMics_eq in H. unfold minDelayMics in H.
  replace (200 <? triacTriggerHoldoffMics s + stepMics s) with false in H
    by (symmetry; apply Z.ltb_ge; lia).
  rewrite andb_false_l, Z.max_l in H by lia.
  rewrite H. split; reflexivity.
Qed.

Lemma ramp_of_fields (s : State) (h st : Z) :
  ramp_of s = (h, st) ->
  triacTriggerHoldoffMics s = h /\ stepMics s = st.
Proof. unfold ramp_of. intros H. injection H as H1 H2. split; assumption. Qed.

(** Going down, the ramp reaches the lower clamp and turns. *)
Lemma reach_bottom (f : nat) :
  forall s,
    stepMics s = -17 ->
    200 <= triacTriggerHoldoffMics s <= 9016 ->
    triacTriggerHoldoffMics s - 200 < 17 * (Z.of_nat f + 1) ->
    exists n, (1 <= n <= f + 1)%nat /\ ramp_of (after_delays n s) = (200, 17).
Proof.
  induction f as [| f IH]; intros s Hst Hh Hf;
    assert (Hok : ramp_ok s)
      by (unfold ramp_ok, minDelayMics, halfPeriodMics; rewrite Hst; lia).
  - exists 1%nat. split; [lia |]. rewrite after_delays_1.
    destruct (triggerDelay_turns_at_bottom s Hok) as [_ T]; [rewrite Hst; lia |].
    rewrite T, Hst. reflexivity.
  - destruct (Z_le_gt_dec (triacTriggerHoldoffMics s - 17) 200) as [Hle | Hgt].
    + exists 1%nat. split; [lia |]. rewrite after_delays_1.
      destruct (triggerDelay_turns_at_bottom s Hok) as [_ T]; [rewrite Hst; lia |].
      rewrite T, Hst. reflexivity.
    + destruct (triggerDelay_steps_inside s Hok) as [_ T]; [rewrite Hst; lia |].
      rewrite Hst in T. apply ramp_of_fields in T. destruct T as [T1 T2].
      destruct (IH (snd (triggerDelay s)) T2) as (n & Hn & R);
        [rewrite T1; lia | rewrite T1; lia |].
      exists (S n). split; [lia | exact R].
Qed.

(** Going up, the ramp reaches the upper clamp and turns. *)
Lemma reach_top (f : nat) :
  forall s,
    stepMics s = 17 ->
    200 <= triacTriggerHoldoffMics s <= 9000 ->
    9000 - triacTriggerHoldoffMics s < 17 * (Z.of_nat f + 1) ->
    exists n, (1 <= n <= f + 1)%nat /\ ramp_of (after_delays n s) = (9000, -17).
Proof.
  induction f as [| f IH]; intros s Hst Hh Hf;
    assert (Hok : ramp_ok s)
      by (unfold ramp_ok, minDelayMics, halfPeriodMics; rewrite Hst; lia).
  - exists 1%nat. split; [lia |]. rewrite after_delays_1.
    destruct (triggerDelay_turns_at_top s Hok) as [_ T]; [rewrite Hst; lia |].
    rewrite T, Hst. reflexivity.
  - destruct (Z_le_gt_dec 9000 (triacTriggerHoldoffMics s + 17)) as [Hle | Hgt].
    + exists 1%nat. split; [lia |]. rewrite after_delays_1.
      destruct (triggerDelay_turns_at_top s Hok) as [_ T]; [rewrite Hst; lia |].
      rewrite T, Hst. reflexivity.
    + destruct (triggerDelay_steps_inside s Hok) as [_ T]; [rewrite Hst; lia |].
      rewrite Hst in T. apply ramp_of_fields in T. destruct T as [T1 T2].
      destruct (IH (snd (triggerDelay s)) T2) as (n & Hn & R);
        [rewrite T1; lia | rewrite T1; lia |].
      exists (S n). split; [lia | exact R].
Qed.

(** From every state the sketch can be in, the ramp is at a clamp, about to
    leave it, within 518 calls. *)
Lemma reach_cycle (s : State) :
  ramp_inv s ->
  exists n, (n <= ramp_half_period)%nat /\
    (ramp_of (after_delays n s) = (200, 17) \/
     ramp_of (after_delays n s) = (9000, -17)).
Proof.
  unfold ramp_half_period. intros [Hh Hs].
  rewrite maxDelayMics_eq in Hh. unfold minDelayMics, halfPeriodMics in Hh.
  destruct Hs as [Hs | Hs]; destruct Hh as [Hh | Hh].
  - (* soft-start value, going up *)
    assert (Hok : ramp_ok s)
      by (unfold ramp_ok, minDelayMics, halfPeriodMics; rewrite Hs; lia).
    destruct (triggerDelay_turns_at_top s Hok) as [_ T]; [lia |].
    exists 1%nat. split; [lia |]. right. rewrite after_delays_1, T, Hs. reflexivity.
  - destruct (reach_top 517 s Hs Hh) as (n & Hn & R); [lia |].
    exists n. split; [lia | right; exact R].
  - (* soft-start value, going down: two calls at the upper clamp *)
    assert (Hok : ramp_ok s)
      by (unfold ramp_ok, minDelayMics, halfPeriodMics; rewrite Hs; lia).
    destruct (triggerDelay_turns_at_top s Hok) as [_ T]; [lia |].
    rewrite Hs in T. apply ramp_of_fields in T. destruct T as [T1 T2].
    assert (Hok1 : ramp_ok (snd (triggerDelay s)))
      by (unfold ramp_ok, minDelayMics, halfPeriodMics; rewrite T1, T2; lia).
    destruct (triggerDelay_turns_at_top _ Hok1) as [_ U]; [rewrite T1, T2; lia |].
    exists 2%nat. split; [lia |]. right.
    change (after_delays 2 s) with (snd (triggerDelay (snd (triggerDelay s)))).
    rewrite U, T2. reflexivity.
  - destruct (reach_bottom 517 s Hs) as (n & Hn & R); [lia | lia |].
    exists n. split; [lia | left; exact R].
Qed.

Lemma after_delays_add (a b : nat) :
  forall s, after_delays (a + b) s = after_delays b (after_delays a s).
Proof.
  induction a as [| a IH]; intros s; [reflexivity |].
  cbn [Nat.add after_delays]. apply IH.
Qed.

Lemma after_delays_ramp_ext (n : nat) :
  forall s1 s2, ramp_of s1 = ramp_of s2 ->
    ramp_of (after_delays n s1) = ramp_of (after_delays n s2).
Proof.
  induction n as [| n IH]; intros s1 s2 H; [exact H |].
  cbn [after_delays]. apply IH.
  unfold ramp_of in H. injection H as H1 H2.
  destruct (triggerDelay_ext s1 s2 H1 H2) as (_ & E2 & E3).
  unfold ramp_of. rewrite E2, E3. reflexivity.
Qed.

Lemma cycle_bottom_to_top :
  ramp_of (after_delays ramp_half_period (ramp_state 200 17)) = (9000, -17).
Proof. vm_compute. reflexivity. Qed.

Lemma cycle_top_to_bottom :
  ramp_of (after_delays ramp_half_period (ramp_state 9000 (-17))) = (200, 17).
Proof. vm_compute. reflexivity. Qed.

Lemma half_turn (s : State) :
  (ramp_of s = (200, 17) ->
   ramp_of (after_delays ramp_half_period s) = (9000, -17)) /\
  (ramp_of s = (9000, -17) ->
   ramp_of (after_delays ramp_half_period s) = (200, 17)).
Proof.
  split; intros H.
  - rewrite (after_delays_ramp_ext ramp_half_period s (ramp_state 200 17) H).
    exact cycle_bottom_to_top.
  - rewrite (after_delays_ramp_ext ramp_half_period s (ramp_state 9000 (-17)) H).
    exact cycle_top_to_bottom.
Qed.

Lemma half_turns (q : nat) :
  forall s,
    ramp_of s = (200, 17) \/ ramp_of s = (9000, -17) ->
    ramp_of (after_delays (q * ramp_half_period) s) = (200, 17) \/
    ramp_of (after_delays (q * ramp_half_period) s) = (9000, -17).
Proof.
  induction q as [| q IH]; intros s H; [exact H |].
  cbn [Nat.mul]. rewrite after_delays_add. apply IH.
  destruct (half_turn s) as [B T].
  destruct H as [H | H]; [right; apply B, H | left; apply T, H].
Qed.

Lemma full_turn (s : State) :
  ramp_of s = (200, 17) \/ ramp_of s = (9000, -17) ->
  ramp_of (after_delays ramp_period s) = ramp_of s.
Proof.
  intros H.
  change ramp_period with (ramp_half_period + ramp_half_period)%nat.
  rewrite after_delays_add.
  destruct (half_turn s) as [B T].
  destruct (half_turn (after_delays ramp_half_period s)) as [B' T'].
  destruct H as [H | H]; rewrite H; [apply T', B, H | apply B', T, H].
Qed.

(** X8.  The delay ramp is periodic.  From any state the sketch can be in
    (holdoff at the soft-start value or within the clamps, step 17 up or
    down), once 518 calls have been made the holdoff and the step, and so
    the delay returned, repeat every 1036 calls; and every window of 1036
    calls contains both a call that leaves the holdoff at 200 and one that
    leaves it at 9000: the ramp keeps sweeping the whole range. *)
Theorem ramp_eventually_periodic (s : State) (n : nat) :
  ramp_inv s ->
  (ramp_half_period <= n)%nat ->
  ramp_of (after_delays (n + ramp_period) s) = ramp_of (after_delays n s) /\
  fst (triggerDelay (after_delays (n + ramp_period) s)) =
    fst (triggerDelay (after_delays n s)) /\
  exists i j, (i < ramp_period)%nat /\ (j < ramp_period)%nat /\
    triacTriggerHoldoffMics (after_delays (n + i) s) = 200 /\
    triacTriggerHoldoffMics (after_delays (n + j) s) = 9000.
Proof.
  intros Hinv Hn.
  destruct (reach_cycle s Hinv) as (k & Hk & Hc).
  set (c := after_delays k s) in *.
  assert (Em : exists m, n = (k + m)%nat) by (exists (n - k)%nat; lia).
  destruct Em as [m ->]. clear Hn.
  assert (P : ramp_of (after_delays (k + m + ramp_period) s)
              = ramp_of (after_delays (k + m) s)).
  { replace (k + m + ramp_period)%nat with (k + (ramp_period + m))%nat by lia.
    rewrite !after_delays_add. fold c.
    apply after_delays_ramp_ext, full_turn, Hc. }
  split; [exact P |]. split.
  - unfold ramp_of in P. injection P as P1 P2.
    apply (triggerDelay_ext _ _ P1 P2).
  - unfold ramp_half_period, ramp_period in *.
    pose proof (Nat.div_mod_eq (m + 517) 518) as Hdm.
    pose proof (Nat.mod_upper_bound (m + 517) 518 ltac:(lia)) as Hr.
    set (q := ((m + 517) / 518)%nat) in *.
    set (r := ((m + 517) mod 518)%nat) in *.
    set (i := (517 - r)%nat).
    assert (Hi : (k + m + i = k + q * 518)%nat) by (unfold i; lia).
    pose proof (half_turns q c Hc) as Hq. unfold ramp_half_period in Hq.
    destruct (half_turn (after_delays (q * 518) c)) as [B T].
    unfold ramp_half_period in B, T.
    assert (E1 : after_delays (k + m + i) s = after_delays (q * 518) c)
      by (rewrite Hi, after_delays_add; reflexivity).
    assert (E2 : after_delays (k + m + (i + 518)) s
                 = after_delays 518 (after_delays (q * 518) c)).
    { replace (k + m + (i + 518))%nat with (k + (q * 518 + 518))%nat by lia.
      rewrite !after_delays_add. reflexivity. }
    destruct Hq as [Hq | Hq].
    + exists i, (i + 518)%nat. rewrite E1, E2.
      apply ramp_of_fields in Hq. specialize (B ltac:(unfold ramp_of; f_equal; apply Hq)).
      apply ramp_of_fields in B.
      split; [unfold i; lia |]. split; [unfold i; lia |].
      split; [apply Hq | apply B].
    + exists (i + 518)%nat, i. rewrite E1, E2.
      apply ramp_of_fields in Hq. specialize (T ltac:(unfold ramp_of; f_equal; apply Hq)).
      apply ramp_of_fields in T.
      split; [unfold i; lia |]. split; [unfold i; lia |].
      split; [apply T | apply Hq].
Qed.

Lemma ramp_eventually_periodic_witness :
  ramp_inv init /\ (ramp_half_period <= 600)%nat /\
  ramp_of (after_delays (600 + ramp_period) init) = ramp_of (after_delays 600 init).
Proof.
  assert (H : ramp_inv init) by (split; [left; reflexivity | right; reflexivity]).
  assert (Hn : (ramp_half_period <= 600)%nat) by (unfold ramp_half_period; lia).
  split; [exact H |]. split; [exact Hn |].
  exact (proj1 (ramp_eventually_periodic init 600 H Hn)).
Defined.

(** ** A steady interval *)

(** Converting a non-negative integer never gives the negative zero. *)
Lemma of_Z_zero_sign (d : Z) (sg : bool) :
  0 <= d -> F32.of_Z d = S754_zero sg -> sg = false.
Proof.
  intros Hd. unfold F32.of_Z, binary_normalize.
  destruct d as [| p | p]; [intros H; injection H as H; congruence | | lia].
  unfold binary_round, binary_round_aux.
  destruct (shl_align _ _ _) as [mz ez].
  destruct (shr_fexp _ _ _ _ _) as [mrs' e'].
  destruct (shr_fexp _ _ _ _ _) as [mrs'' e''].
  destruct (shr_m mrs'') as [| q | q]; try discriminate.
  - intros H. injection H as H. congruence.
  - destruct (_ <=? _); discriminate.
Qed.

Lemma thirty_two : F32.of_Z 32 = S754_finite false 8388608 (-18).
Proof. vm_compute. reflexivity. Qed.

(** X9.  An interval equal to the average leaves the average as it is: when
    the measured interval, converted to [float], is the current average
    (and that is a number), the smoothing step returns it unchanged, bit
    for bit.  So under perfectly regular mains the averages do not drift. *)
Theorem steady_interval_keeps_average (a : F32.float) (d : Z) :
  0 <= d ->
  F32.of_Z d = a ->
  is_number a = true ->
  smooth a d = a.
Proof.
  intros Hd Ha Hn. unfold smooth. rewrite Ha, thirty_two.
  destruct a as [sg | sg | | sg m e]; try discriminate.
  - rewrite (of_Z_zero_sign d sg Hd Ha). reflexivity.
  - unfold F32.sub, SFsub. rewrite Z.sub_diag. reflexivity.
Qed.

Lemma steady_interval_keeps_average_witness :
  smooth (F32.of_Z 9600) 9600 = F32.of_Z 9600.
Proof.
  exact (steady_interval_keeps_average (F32.of_Z 9600) 9600
           ltac:(lia) eq_refl ltac:(reflexivity)).
Defined.

(** ** Setting up the timer *)

(** X10.  [setupTimer1] stops the timer (both control registers 0) without
    touching the counter or the compare register, sets the compare-match
    interrupt enable bit of TIMSK1 and keeps every other bit of that
    register; doing it again changes nothing. *)
Theorem setupTimer1_enables_compare_interrupt (u : Timer1Unit) :
  let u' := setupTimer1 u in
  TCCR1A (regs u') = 0 /\ TCCR1B (regs u') = 0 /\
  TCNT1 (regs u') = TCNT1 (regs u) /\ OCR1A (regs u') = OCR1A (regs u) /\
  Z.testbit (TIMSK1 u') OCIE1A = true /\
  (forall i, 0 <= i < 8 -> i <> OCIE1A ->
     Z.testbit (TIMSK1 u') i = Z.testbit (TIMSK1 u) i) /\
  0 <= TIMSK1 u' < 256 /\
  setupTimer1 u' = u'.
Proof.
  cbv zeta. unfold setupTimer1. cbn [regs TIMSK1 TCCR1A TCCR1B TCNT1 OCR1A].
  unfold Word.u8, OCIE1A. change (Z.shiftl 1 1) with (2 ^ 1).
  repeat split.
  - rewrite Z.testbit_mod_pow2, Z.lor_spec, Z.pow2_bits_true by lia.
    rewrite orb_true_r. reflexivity.
  - intros i Hi Hne.
    rewrite Z.testbit_mod_pow2, Z.lor_spec, Z.pow2_bits_false by lia.
    rewrite orb_false_r.
    replace (i <? 8) with true by (symmetry; apply Z.ltb_lt; lia). reflexivity.
  - apply Z.mod_pos_bound. lia.
  - change 256 with (2 ^ 8). apply Z.mod_pos_bound. lia.
  - f_equal. apply Z.bits_inj'. intros i Hi.
    rewrite !Z.testbit_mod_pow2, !Z.lor_spec, !Z.testbit_mod_pow2, !Z.lor_spec by lia.
    destruct (i <? 8), (Z.testbit (TIMSK1 u) i), (Z.testbit (2 ^ 1) i); reflexivity.
Qed.

Lemma setupTimer1_enables_compare_interrupt_witness :
  0 <= 0 < 8 /\ 0 <> OCIE1A /\
  Z.testbit (TIMSK1 (setupTimer1 (mkTimer1Unit (mkTimer1 37 1 0 3) 5))) 0 = true.
Proof.
  assert (H1 : 0 <= 0 < 8) by lia.
  assert (H2 : 0 <> OCIE1A) by discriminate.
  split; [exact H1 |]. split; [exact H2 |].
  destruct (setupTimer1_enables_compare_interrupt
              (mkTimer1Unit (mkTimer1 37 1 0 3) 5)) as (_ & _ & _ & _ & _ & K & _).
  rewrite (K 0 H1 H2). reflexivity.
Defined.

(** ** The ramp and the edges *)

(** X11.  The ramp advances exactly once per rising edge and is otherwise
    left alone: after any sequence of edges without a mains loss, whatever
    their timing and whatever the averages, the holdoff and the step are
    those after as many calls of [triggerDelay] as there were rising edges. *)
Theorem ramp_advances_per_rising_edge (es : list Env) :
  forall s : State,
    all_short es s ->
    ramp_of (run_edges es s) =
    ramp_of (after_delays (length (filter is_rising es)) s).
Proof.
  induction es as [| e es IH]; intros s Hs; [reflexivity |].
  destruct Hs as [Hd Hs]. cbn [run_edges filter].
  rewrite (IH _ Hs).
  pose proof (voltageCrossedThreshold_ramp e s) as V. cbv zeta in V.
  replace (deltaMics e s >? halfPeriodMics) with false in V
    by (symmetry; rewrite Z.gtb_ltb; apply Z.ltb_ge; lia).
  unfold is_rising. destruct (digitalRead_VOLTAGE_THR_PIN e).
  - cbn [length after_delays]. apply after_delays_ramp_ext.
    destruct V as [V1 V2]. destruct (triggerDelay_range s) as [_ R].
    unfold ramp_of. rewrite V1, V2, R. reflexivity.
  - apply after_delays_ramp_ext. destruct V as [V1 V2].
    unfold ramp_of. rewrite V1, V2. reflexivity.
Qed.

Lemma ramp_advances_per_rising_edge_witness :
  all_short [mkEnv 100 LOW; mkEnv 9700 HIGH; mkEnv 10100 LOW] init /\
  ramp_of (run_edges [mkEnv 100 LOW; mkEnv 9700 HIGH; mkEnv 10100 LOW] init) =
  ramp_of (after_delays 2 init).
Proof.
  assert (H : all_short [mkEnv 100 LOW; mkEnv 9700 HIGH; mkEnv 10100 LOW] init)
    by by_computation.
  split; [exact H |].
  exact (ramp_advances_per_rising_edge _ init H).
Defined.

(** X12.  The delay changes by at most one step per call: from a holdoff
    within the clamps the value returned differs from the previous holdoff
    by no more than the magnitude of the step (17 microseconds in the
    sketch), so the conduction angle never jumps while the mains is
    present. *)
Theorem delay_changes_by_one_step (s : State) :
  ramp_ok s ->
  triacTriggerHoldoffMics s <= maxDelayMics ->
  Z.abs (fst (triggerDelay s) - triacTriggerHoldoffMics s) <= Z.abs (stepMics s).
Proof.
  intros Hok Hh. pose proof (triggerDelay_ramp s Hok) as H. cbv zeta in H.
  rewrite H. cbn [fst]. destruct Hok as [Hr Hs].
  rewrite maxDelayMics_eq in *. unfold minDelayMics in *. lia.
Qed.

Lemma delay_changes_by_one_step_witness :
  Z.abs (fst (triggerDelay (ramp_state 205 (-17))) - 205) <= 17.
Proof.
  exact (delay_changes_by_one_step (ramp_state 205 (-17))
           ltac:(by_computation) ltac:(by_computation)).
Defined.

(** X13.  A later request gives a later trigger: for requests that are
    scheduled, the compare value does not decrease when the delay grows or
    when the zero-cross offset shrinks. *)
Theorem compare_value_monotone (z z' d d' : Z) (s s' : State) :
  0 <= z' -> z' <= z -> d <= d' -> d' <= 9688 ->
  OCR1A (timer1 (scheduleTriacTrigger z d s)) <=
  OCR1A (timer1 (scheduleTriacTrigger z' d' s')).
Proof.
  intros Hz' Hz Hd Hd'.
  rewrite !scheduleTriacTrigger_armed by lia. cbn [OCR1A].
  assert ((d - z) / 4 <= (d' - z') / 4) by (apply Z.div_le_mono; lia).
  lia.
Qed.

Lemma compare_value_monotone_witness :
  OCR1A (timer1 (scheduleTriacTrigger 76 5000 init)) <=
  OCR1A (timer1 (scheduleTriacTrigger 75 5017 init)).
Proof.
  exact (compare_value_monotone 76 75 5000 5017 init init
           ltac:(lia) ltac:(lia) ltac:(lia) ltac:(lia)).
Defined.
